(** * Glassdoor salary API: the cache store, the formatting helpers and the
      lookup pipeline, embedded from [src/cache.ts] and [src/glassdoor.ts].

    Modelling conventions.
    - A JS string is a Rocq [string], the bytes of its UTF-8 form.  The
      character-level operations [trim], [toLowerCase], [\w] and [\s] of
      [JsString] are the runtime's on ASCII strings.  On other strings they
      treat every byte above 127 as an ordinary character that is neither a
      letter nor white space, where the runtime lower-cases non-ASCII
      capitals and counts Unicode white space as white space.  The
      statements about key normalization are therefore made over
      [StringOps], the runtime's own [trim] and [toLowerCase] taken as
      parameters, and the statement about the output alphabet of
      [formatName] is made for ASCII inputs.
    - A JS number is an integer [Z]: timestamps are milliseconds, TTLs are
      seconds, salaries are whole currency units and arithmetic is exact.
      Fractional amounts are outside the model, and so are amounts of
      4 * 10^15 and more, where double rounding and exponent notation set in.
    - The module-level object [cache] is a [gmap string (CacheEntry T)] of
      its own properties, threaded explicitly through the operations.  A
      plain JS object also answers to the names of [Object.prototype]
      ([object_prototype_members]): the statements that depend on it are
      made for names that are [plain_name]s.
    - [Date.now()] is an explicit [now] argument in the cache store and a
      clock in the state of the pipeline.  The clock of the pipeline moves
      only by the latency of an outbound call; no statement is made about
      elapsed wall-clock time. *)

From Stdlib Require Import ZArith Ascii String List Lia QArith_base.
From stdpp Require Import gmap strings list fin_maps pretty.

Local Open Scope Z_scope.
Local Open Scope string_scope.

(** ** String primitives of the JS runtime used by the sources *)

Module JsString.

(** White space as recognised by [String.prototype.trim] and by [\s]. *)
Definition is_white_space (c : ascii) : bool :=
  match c with
  | "009" | "010" | "011" | "012" | "013" | " " => true
  | _ => false
  end%char.

Definition is_upper (c : ascii) : bool :=
  ((65 <=? nat_of_ascii c)%nat && (nat_of_ascii c <=? 90)%nat)%bool.

Definition is_lower (c : ascii) : bool :=
  ((97 <=? nat_of_ascii c)%nat && (nat_of_ascii c <=? 122)%nat)%bool.

Definition is_digit (c : ascii) : bool :=
  ((48 <=? nat_of_ascii c)%nat && (nat_of_ascii c <=? 57)%nat)%bool.

(** The class [\w] of a regular expression without the [u] flag:
    [A-Za-z0-9_]. *)
Definition is_word (c : ascii) : bool :=
  (is_upper c || is_lower c || is_digit c || Ascii.eqb c "_"%char)%bool.

Definition lower_char (c : ascii) : ascii :=
  if is_upper c then ascii_of_nat (nat_of_ascii c + 32) else c.

Fixpoint toLowerCase (s : string) : string :=
  match s with
  | EmptyString => EmptyString
  | String c s' => String (lower_char c) (toLowerCase s')
  end.

Fixpoint trimStart (s : string) : string :=
  match s with
  | EmptyString => EmptyString
  | String c s' => if is_white_space c then trimStart s' else s
  end.

Fixpoint trimEnd (s : string) : string :=
  match s with
  | EmptyString => EmptyString
  | String c s' =>
      match trimEnd s' with
      | EmptyString => if is_white_space c then EmptyString else String c EmptyString
      | r => String c r
      end
  end.

Definition trim (s : string) : string := trimEnd (trimStart s).

Fixpoint startsWith (s prefix : string) : bool :=
  match prefix, s with
  | EmptyString, _ => true
  | String p prefix', String c s' => (Ascii.eqb c p && startsWith s' prefix')%bool
  | String _ _, EmptyString => false
  end.

(** [s.split(sep)[0]]: the characters of [s] before the first separator
    (all of [s] when it holds none). *)
Fixpoint split_first (sep : ascii -> bool) (s : string) : string :=
  match s with
  | EmptyString => EmptyString
  | String c s' => if sep c then EmptyString else String c (split_first sep s')
  end.

(** [s.replace(/[^...]/g, '')]: keep the characters that satisfy [keep]. *)
Fixpoint keep_chars (keep : ascii -> bool) (s : string) : string :=
  match s with
  | EmptyString => EmptyString
  | String c s' =>
      if keep c then String c (keep_chars keep s') else keep_chars keep s'
  end.

(** Truthiness of a string: only the empty string is falsy. *)
Definition truthy (s : string) : bool :=
  match s with EmptyString => false | _ => true end.

(** A string that does not begin with white space. *)
Definition no_leading_space (s : string) : Prop :=
  match s with
  | EmptyString => True
  | String c _ => is_white_space c = false
  end.

(** The property names every object literal inherits from
    [Object.prototype]. *)
Definition object_prototype_members : list string :=
  ["constructor"; "__defineGetter__"; "__defineSetter__"; "hasOwnProperty";
   "__lookupGetter__"; "__lookupSetter__"; "isPrototypeOf";
   "propertyIsEnumerable"; "toString"; "valueOf"; "__proto__"; "toLocaleString"].

(** A name that is not one of them: reading it from an object literal gives
    an own property or [undefined]. *)
Definition plain_name (s : string) : bool :=
  negb (existsb (String.eqb s) object_prototype_members).

(** [String(obj[name])] for an object literal [obj] without an own property
    [name]: the text of the inherited member as Node prints it, [None] when
    there is none.  All inherited members are objects, hence truthy. *)
Definition inherited_member_text (name : string) : option string :=
  if String.eqb name "__proto__" then Some "[object Object]"
  else if String.eqb name "constructor" then Some "function Object() { [native code] }"
  else if existsb (String.eqb name) object_prototype_members
       then Some ("function " +:+ name +:+ "() { [native code] }")
  else None.

(** [String.prototype.trim] and [String.prototype.toLowerCase] of a runtime. *)
Record StringOps : Type := mkStringOps {
  ops_trim : string -> string;
  ops_toLowerCase : string -> string
}.

(** The ASCII operations above. *)
Definition ascii_ops : StringOps := mkStringOps trim toLowerCase.

Definition is_ascii (c : ascii) : bool := (nat_of_ascii c <? 128)%nat.

Fixpoint ascii_string (s : string) : bool :=
  match s with
  | EmptyString => true
  | String c s' => (is_ascii c && ascii_string s')%bool
  end.

(** What is known of a runtime's operations: on ASCII strings they are the
    ASCII ones. *)
Definition agrees_on_ascii (ops : StringOps) : Prop :=
  forall s, ascii_string s = true ->
    ops_trim ops s = trim s /\ ops_toLowerCase ops s = toLowerCase s.

End JsString.

(** ** The cache store ([src/cache.ts]) *)

Module Cache.
Import JsString.

Record CacheEntry (T : Type) : Type := mkEntry { value : T; expiresAt : Z }.
Arguments mkEntry {T} _ _.
Arguments value {T} _.
Arguments expiresAt {T} _.

Definition normalize (s : string) : string := toLowerCase (trim s).

Definition generateCacheKey (companyName jobTitle : string) : string :=
  let normalizedCompany := toLowerCase (trim companyName) in
  let normalizedJob := toLowerCase (trim jobTitle) in
  "salary:" +:+ normalizedCompany +:+ ":" +:+ normalizedJob.

Definition generateCompanyCacheKey (companyName : string) : string :=
  let normalizedCompany := toLowerCase (trim companyName) in
  "company:" +:+ normalizedCompany.

Definition generateJobCacheKey (jobTitle : string) : string :=
  let normalizedJob := toLowerCase (trim jobTitle) in
  "job:" +:+ normalizedJob.

(** The three generators over the runtime's own string operations. *)
Definition normalizeWith (ops : StringOps) (s : string) : string :=
  ops_toLowerCase ops (ops_trim ops s).

Definition generateCacheKeyWith (ops : StringOps) (companyName jobTitle : string) : string :=
  let normalizedCompany := ops_toLowerCase ops (ops_trim ops companyName) in
  let normalizedJob := ops_toLowerCase ops (ops_trim ops jobTitle) in
  "salary:" +:+ normalizedCompany +:+ ":" +:+ normalizedJob.

Definition generateCompanyCacheKeyWith (ops : StringOps) (companyName : string) : string :=
  let normalizedCompany := ops_toLowerCase ops (ops_trim ops companyName) in
  "company:" +:+ normalizedCompany.

Definition generateJobCacheKeyWith (ops : StringOps) (jobTitle : string) : string :=
  let normalizedJob := ops_toLowerCase ops (ops_trim ops jobTitle) in
  "job:" +:+ normalizedJob.

Definition default_ttl : Z := 86400.

Record CacheStats : Type := mkStats {
  totalEntries : Z;
  byPrefix : gmap string Z;
  memoryUsageEstimate : Z
}.

(** [key.split(':')[0]] *)
Definition prefix_segment (key : string) : string :=
  split_first (fun c => Ascii.eqb c ":"%char) key.

Section Store.
Context {T : Type}.

(** [JSON.stringify(v).length] for a stored value. *)
Variable stringify_length : T -> Z.

(** [cache[key] = { value, expiresAt }] for a [key] other than ["__proto__"],
    the one name for which the assignment creates no own property. *)
Definition setCacheValue (now : Z) (key : string) (v : T) (ttlSeconds : Z)
    (cache : gmap string (CacheEntry T)) : gmap string (CacheEntry T) :=
  let expires := now + ttlSeconds * 1000 in
  <[key := mkEntry v expires]> cache.

(** Returns the value read ([None] is JS [null]) and the store, from
    which an expired entry has been deleted. *)
Definition getCacheValue (now : Z) (key : string)
    (cache : gmap string (CacheEntry T)) : option T * gmap string (CacheEntry T) :=
  match cache !! key with
  | None => (None, cache)
  | Some entry =>
      if now >? expiresAt entry
      then (None, delete key cache)
      else (Some (value entry), cache)
  end.

(** [prefix] is [None] when the argument is omitted; an empty string is
    falsy and takes the clear-everything branch as well. *)
Definition clearCache (prefix : option string)
    (cache : gmap string (CacheEntry T)) : gmap string (CacheEntry T) :=
  match prefix with
  | Some p =>
      if truthy p
      then filter (fun kv => startsWith (fst kv) p = false) cache
      else ∅
  | None => ∅
  end.

(** One iteration of the [forEach] body of [getCacheStats], for a value that
    serializes and a prefix segment that is a [plain_name]. *)
Definition stats_step (key : string) (entry : CacheEntry T)
    (stats : CacheStats) : CacheStats :=
  let prefix := prefix_segment key in
  {| totalEntries := totalEntries stats + 1;
     byPrefix := <[prefix := default 0 (byPrefix stats !! prefix) + 1]> (byPrefix stats);
     memoryUsageEstimate :=
       memoryUsageEstimate stats + stringify_length (value entry) * 2 |}.

Definition getCacheStats (cache : gmap string (CacheEntry T)) : CacheStats :=
  map_fold stats_step
    {| totalEntries := 0; byPrefix := ∅; memoryUsageEstimate := 0 |} cache.

End Store.

(** Every stored value has a serialization whose length can be read:
    [stringify v] is [None] when [JSON.stringify(v)] is [undefined], as for
    [v = undefined]. *)
Definition serializable {T : Type} (stringify : T -> option Z)
    (cache : gmap string (CacheEntry T)) : Prop :=
  map_Forall (fun _ entry => is_Some (stringify (value entry))) cache.

(** [getCacheStats()] as it runs: [None] is the [TypeError] raised at
    [JSON.stringify(entry.value).length] for a value without serialization.
    The [byPrefix] buckets are the code's for prefix segments that are
    [plain_name]s; for a segment that names a member of [Object.prototype]
    the code builds a string instead of a count. *)
Definition getCacheStats_js {T : Type} (stringify : T -> option Z)
    (cache : gmap string (CacheEntry T)) : option CacheStats :=
  if decide (serializable stringify cache)
  then Some (getCacheStats (fun v => default 0 (stringify v)) cache)
  else None.

(** Every stored key, and its segment before the first [":"], is a
    [plain_name]. *)
Definition plain_store {T : Type} (cache : gmap string (CacheEntry T)) : Prop :=
  map_Forall (fun key _ => plain_name key = true /\ plain_name (prefix_segment key) = true)
    cache.



(** A store with two keys that begin with the letters of ["company"] and
    one that does not. *)
Definition collision_cache : gmap string (CacheEntry Z) :=
  <["companyx:a" := mkEntry 1 0]>
    (<["company:acme" := mkEntry 3 0]> (<["job:x" := mkEntry 2 0]> ∅)).

End Cache.

(** ** The lookup pipeline and the formatting helpers ([src/glassdoor.ts]) *)

Module Glassdoor.
Import JsString Cache.

(** *** Formatting helpers *)

Definition formatName (name : string) : string :=
  if negb (truthy name) then EmptyString
  else
    let cleanedName :=
      trim (split_first (fun c => (Ascii.eqb c ","%char || Ascii.eqb c "("%char)%bool) name) in
    keep_chars (fun c => (is_word c || is_white_space c)%bool) cleanedName.

(** The seven own properties of the object literal [currencySymbols]. *)
Definition currencySymbols (currency : string) : option string :=
  if String.eqb currency "INR" then Some "₹"
  else if String.eqb currency "GBP" then Some "£"
  else if String.eqb currency "USD" then Some "$"
  else if String.eqb currency "EUR" then Some "€"
  else if String.eqb currency "JPY" then Some "¥"
  else if String.eqb currency "AUD" then Some "A$"
  else if String.eqb currency "CAD" then Some "C$"
  else None.

(** The symbol table in the words of the specification: the seven listed
    codes, and the empty symbol for any other code. *)
Definition spec_currency_symbol (code : string) : string :=
  if decide (code = "INR") then "₹"
  else if decide (code = "GBP") then "£"
  else if decide (code = "USD") then "$"
  else if decide (code = "EUR") then "€"
  else if decide (code = "JPY") then "¥"
  else if decide (code = "AUD") then "A$"
  else if decide (code = "CAD") then "C$"
  else EmptyString.

(** [Math.round (n / d)] for an integer [n] and a positive integer [d]:
    the nearest integer, a tie going towards plus infinity. *)
Definition round_div (n d : Z) : Z := (2 * n + d) / (2 * d).

(** [currencySymbols[currency] || '']: an own symbol, else the inherited
    member of that name (an object, hence truthy, which the concatenation
    below turns into its text), else the empty string.  An [undefined]
    currency reads the property ["undefined"]. *)
Definition currencySymbol (currency : option string) : string :=
  let name := default "undefined" currency in
  match currencySymbols name with
  | Some symbol => symbol
  | None => default EmptyString (inherited_member_text name)
  end.

(** [salary] and [currency] are [None] when the argument is [undefined]
    (the orchestrator passes the result of an optional chain).  The amount
    is a whole number below 4 * 10^15 in absolute value. *)
Definition formatSalary (salary : option Z) (currency : option string) : string :=
  match salary with
  | None | Some 0 => "N/A"
  | Some salary =>
      let currencySymbol := currencySymbol currency in
      if salary >=? 10000000 then
        currencySymbol +:+ pretty (round_div salary 10000000) +:+ " cr"
      else if salary >=? 100000 then
        currencySymbol +:+ pretty (round_div salary 100000) +:+ " lakh"
      else if salary >=? 1000 then
        currencySymbol +:+ pretty (round_div salary 1000) +:+ " k"
      else
        currencySymbol +:+ pretty salary
  end.

(** *** Upstream payloads

    The responses are untyped JSON in the source.  Each record below has one
    field per property the code reads; a property that is absent (or
    [undefined]) is [None]. *)

(** An element of a result list of the employer search ([id], [name],
    [overallRating]) or of the job-title autocomplete ([id], [label]).  The
    cache stores both kinds untyped, so one record serves for both. *)
Record Entity : Type := mkEntity {
  id : option Z;
  name : option string;
  overallRating : option Q;
  label : option string
}.

Record Percentile : Type := mkPercentile {
  ident : option string;
  percentile_value : option Z
}.

Record Currency : Type := mkCurrency { code : option string }.

Record PayStatistics : Type := mkPayStatistics {
  percentiles : option (list Percentile)
}.

Record SalaryRecord : Type := mkSalaryRecord {
  currency : option Currency;
  salaryCount : option Z;
  totalPayStatistics : option PayStatistics
}.

(** [jsonResponse.json.response.employers] *)
Record EmployersResponse : Type := mkEmployersResponse {
  employers : option (list Entity)
}.
Record CompanyJson : Type := mkCompanyJson { response : option EmployersResponse }.
Record CompanyBody : Type := mkCompanyBody { json : option CompanyJson }.

(** [jsonResponse[0]?.data?.jobTitleAutocomplete] *)
Record JobData : Type := mkJobData { jobTitleAutocomplete : option (list Entity) }.
Record JobBatch : Type := mkJobBatch { job_data : option JobData }.

(** [jsonResponse[0]?.data?.aggregatedSalaryEstimates.results] *)
Record AggregatedSalaryEstimates : Type := mkAggregated {
  results : option (list SalaryRecord)
}.
Record SalaryData : Type := mkSalaryData {
  aggregatedSalaryEstimates : option AggregatedSalaryEstimates
}.
Record SalaryBatch : Type := mkSalaryBatch { salary_data : option SalaryData }.

(** The outbound calls. *)
Inductive Request : Type :=
| CompanySearch (companyName : string)
| JobTitleAutocomplete (input : string)
| EiSalariesGraphQuery (employerId jobTitleId : option Z) (jobTitle : option string).

(** What [await fetch(...)] followed by [await response.json()] gives:
    the promise rejects, or there is a status and a parsed body. *)
Inductive Reply (B : Type) : Type :=
| Rejected
| Responded (status : Z) (body : B).
Arguments Rejected {B}.
Arguments Responded {B} _ _.

(** [response.ok] *)
Definition ok (status : Z) : bool := ((200 <=? status)%Z && (status <=? 299)%Z)%bool.

Record Upstream : Type := mkUpstream {
  company_search : string -> Reply CompanyBody;
  job_autocomplete : string -> Reply (list JobBatch);
  salaries_query : option Z -> option Z -> option string -> Reply (list SalaryBatch);
  (** milliseconds the call takes *)
  latency : Request -> Z
}.

(** [process.env.GLASSDOOR_BASE_URL] and [process.env.GLASSDOOR_GRAPH_URL]. *)
Record Config : Type := mkConfig {
  baseUrl : option string;
  graphUrl : option string
}.

Definition configured (url : option string) : bool :=
  match url with Some u => truthy u | None => false end.

(** *** The composed result *)

Record SalaryInfo : Type := mkSalaryInfo {
  company_name : option string;
  company_rating : option Q;
  job_title : option string;
  job_salaryCount : Z;
  salary_currency : option string;
  salary_low : string;
  salary_median : string;
  salary_high : string;
  salary_range : string;
  source : string;
  timestamp : string
}.

(** The values the pipeline stores in the cache and passes around as [any]. *)
Inductive Any : Type :=
| Undefined
| Items (l : list Entity)
| Composed (r : SalaryInfo).

(** [if (x)] for a value read from the cache ([None] is [null]). *)
Definition truthy_value (x : option Any) : bool :=
  match x with
  | None | Some Undefined => false
  | Some (Items _) | Some (Composed _) => true
  end.

(** *** State and exceptions *)

Inductive Exn : Type :=
| Error (message : string)
| TypeError
| FetchRejected.

Inductive Outcome (A : Type) : Type :=
| Return (a : A)
| Throw (e : Exn).
Arguments Return {A} _.
Arguments Throw {A} _.

Record World : Type := mkWorld {
  cache : gmap string (CacheEntry Any);
  clock : Z;
  calls : list Request
}.

(** A computation reads and updates the world; what it wrote before it
    threw stays written. *)
Definition M (A : Type) : Type := World -> Outcome A * World.

Definition ret {A} (a : A) : M A := fun w => (Return a, w).
Definition throw {A} (e : Exn) : M A := fun w => (Throw e, w).
Definition bind {A B} (m : M A) (k : A -> M B) : M B :=
  fun w =>
    match m w with
    | (Return a, w') => k a w'
    | (Throw e, w') => (Throw e, w')
    end.

Notation "x <- m ;; k" := (bind m (fun x => k))
  (at level 100, m at next level, right associativity).

Definition cache_get (key : string) : M (option Any) :=
  fun w =>
    let '(v, c) := getCacheValue (clock w) key (cache w) in
    (Return v, mkWorld c (clock w) (calls w)).

Definition cache_set (key : string) (v : Any) (ttlSeconds : Z) : M unit :=
  fun w =>
    (Return tt, mkWorld (setCacheValue (clock w) key v ttlSeconds (cache w)) (clock w) (calls w)).

(** [new Date()] *)
Definition date_now : M Z := fun w => (Return (clock w), w).

(** *** The three lookups and the orchestrator *)

Section Pipeline.

Variable cfg : Config.
Variable up : Upstream.

(** [Date.prototype.toISOString], applied to a time in milliseconds. *)
Variable toISOString : Z -> string.

(** One outbound exchange: it is recorded, it takes its latency, and it
    rejects or yields a status with a body.  This is the one place where the
    clock of the model moves; the wall clock of the code also moves between
    calls, so the model fixes what is read from the clock only up to that. *)
Definition fetch {B : Type} (req : Request) (reply : Reply B) : M (Z * B) :=
  fun w =>
    let w' := mkWorld (cache w) (clock w + latency up req) (calls w ++ [req]) in
    match reply with
    | Rejected => (Throw FetchRejected, w')
    | Responded status body => (Return (status, body), w')
    end.

Definition thirty_days : Z := 30 * 24 * 60 * 60.
Definition fifteen_days : Z := 15 * 24 * 60 * 60.

Definition fetchGlassdoorCompanies (companyName : string) : M Any :=
  let companyCacheKey := generateCompanyCacheKey companyName in
  cachedCompanies <- cache_get companyCacheKey ;;
  if truthy_value cachedCompanies then ret (default Undefined cachedCompanies)
  else if negb (configured (baseUrl cfg)) then
    throw (Error "Glassdoor base URL is not configured")
  else
    r <- fetch (CompanySearch companyName) (company_search up companyName) ;;
    let '(status, jsonResponse) := r in
    if negb (ok status) then
      throw (Error ("API request failed with status " +:+ pretty status))
    else
      match json jsonResponse with
      | None => throw TypeError
      | Some j =>
          match response j with
          | None => throw TypeError
          | Some resp =>
              match employers resp with
              | Some (c :: cs) =>
                  u <- cache_set companyCacheKey (Items (c :: cs)) thirty_days ;;
                  ret (Items (c :: cs))
              | Some [] => ret (Items [])
              | None => ret Undefined
              end
          end
      end.

Definition fetchJobTitles (jobTitleInput : string) : M Any :=
  let jobCacheKey := generateJobCacheKey jobTitleInput in
  cachedJobs <- cache_get jobCacheKey ;;
  if truthy_value cachedJobs then ret (default Undefined cachedJobs)
  else if negb (configured (graphUrl cfg)) then
    throw (Error "Glassdoor graph URL is not configured")
  else
    r <- fetch (JobTitleAutocomplete jobTitleInput) (job_autocomplete up jobTitleInput) ;;
    let '(status, jsonResponse) := r in
    if negb (ok status) then
      throw (Error ("GraphQL request failed with status " +:+ pretty status))
    else
      let jobs :=
        default [] (d ← (b ← head jsonResponse; job_data b); jobTitleAutocomplete d) in
      match jobs with
      | j :: js =>
          u <- cache_set jobCacheKey (Items (j :: js)) thirty_days ;;
          ret (Items (j :: js))
      | [] => ret (Items [])
      end.

Definition fetchSalaries (companyId jobId : option Z) (jobTitle : option string)
    : M (list SalaryRecord) :=
  if negb (configured (graphUrl cfg)) then
    throw (Error "Glassdoor graph URL is not configured")
  else
    r <- fetch (EiSalariesGraphQuery companyId jobId jobTitle)
               (salaries_query up companyId jobId jobTitle) ;;
    let '(status, jsonResponse) := r in
    if negb (ok status) then
      throw (Error ("GraphQL request failed with status " +:+ pretty status))
    else
      match b ← head jsonResponse; salary_data b with
      | None => ret []
      | Some data =>
          match aggregatedSalaryEstimates data with
          | None => throw TypeError
          | Some estimates => ret (default [] (results estimates))
          end
      end.

(** [salaryPercentiles.find(item => item.ident === p)?.value] *)
Definition find_percentile (p : string) (l : list Percentile) : option Z :=
  item ← List.find (fun item => bool_decide (ident item = Some p)) l;
  percentile_value item.

Definition empty_salary : SalaryRecord := mkSalaryRecord None None None.

(** The object literal [result]. *)
Definition compose (c j : Entity) (salary : SalaryRecord) (now : Z) : SalaryInfo :=
  let salaryCurrency := cur ← currency salary; code cur in
  let salaryPercentiles :=
    default [] (st ← totalPayStatistics salary; percentiles st) in
  let salaryLow := find_percentile "P25" salaryPercentiles in
  let salaryMed := find_percentile "P50" salaryPercentiles in
  let salaryHigh := find_percentile "P75" salaryPercentiles in
  let salaryLowRange := formatSalary salaryLow salaryCurrency in
  let salaryMedian := formatSalary salaryMed salaryCurrency in
  let salaryHighRange := formatSalary salaryHigh salaryCurrency in
  {| company_name := name c;
     company_rating := overallRating c;
     job_title := label j;
     job_salaryCount := default 0 (salaryCount salary);
     salary_currency := salaryCurrency;
     salary_low := salaryLowRange;
     salary_median := salaryMedian;
     salary_high := salaryHighRange;
     salary_range := salaryLowRange +:+ " - " +:+ salaryHighRange;
     source := "Glassdoor";
     timestamp := toISOString now |}.

Definition getSalaryInfo (companyName jobTitle : string) : M Any :=
  let cacheKey := generateCacheKey companyName jobTitle in
  cachedData <- cache_get cacheKey ;;
  if truthy_value cachedData then ret (default Undefined cachedData)
  else
    let formattedCompanyName := formatName companyName in
    let formattedJobTitle := formatName jobTitle in
    companies <- fetchGlassdoorCompanies formattedCompanyName ;;
    match companies with
    | Undefined | Items [] =>
        throw (Error ("No company found matching '" +:+ companyName +:+ "'"))
    | Composed _ => throw TypeError
    | Items (c :: _) =>
        jobs <- fetchJobTitles formattedJobTitle ;;
        match jobs with
        | Undefined | Items [] =>
            throw (Error ("No job titles found matching '" +:+ jobTitle +:+ "'"))
        | Composed _ => throw TypeError
        | Items (j :: _) =>
            salaries <- fetchSalaries (id c) (id j) (label j) ;;
            let salary := default empty_salary (head salaries) in
            now <- date_now ;;
            let result := compose c j salary now in
            u <- cache_set cacheKey (Composed result) fifteen_days ;;
            ret (Composed result)
        end
    end.

End Pipeline.

(** *** Stubbed upstreams for the end-to-end properties *)

Definition acme : Entity :=
  mkEntity (Some 1) (Some "Acme") (Some (Qmake 42 10)) None.

Definition engineer : Entity :=
  mkEntity (Some 9) None None (Some "Engineer").

Definition usd_record : SalaryRecord :=
  mkSalaryRecord
    (Some (mkCurrency (Some "USD")))
    None
    (Some (mkPayStatistics
       (Some [mkPercentile (Some "P25") (Some 80000);
              mkPercentile (Some "P50") (Some 100000);
              mkPercentile (Some "P75") (Some 120000)]))).

Definition company_body (l : list Entity) : CompanyBody :=
  mkCompanyBody (Some (mkCompanyJson (Some (mkEmployersResponse (Some l))))).

Definition job_body (l : list Entity) : list JobBatch :=
  [mkJobBatch (Some (mkJobData (Some l)))].

Definition salary_body (l : list SalaryRecord) : list SalaryBatch :=
  [mkSalaryBatch (Some (mkSalaryData (Some (mkAggregated (Some l)))))].

(** A first batched element with a [data] field that lacks
    [aggregatedSalaryEstimates]. *)
Definition no_estimates_body : list SalaryBatch :=
  [mkSalaryBatch (Some (mkSalaryData None))].

(** Every call succeeds with status 200 and the given result lists. *)
Definition stub_upstream (companies jobs : list Entity) (salaries : list SalaryBatch)
    (lat : Request -> Z) : Upstream :=
  {| company_search := fun _ => Responded 200 (company_body companies);
     job_autocomplete := fun _ => Responded 200 (job_body jobs);
     salaries_query := fun _ _ _ => Responded 200 salaries;
     latency := lat |}.

Definition acme_upstream (lat : Request -> Z) : Upstream :=
  stub_upstream [acme] [engineer] (salary_body [usd_record]) lat.

Definition stub_config : Config :=
  {| baseUrl := Some "https://glassdoor.test/companies";
     graphUrl := Some "https://glassdoor.test/graph" |}.

(** A stand-in for [toISOString]: the time in milliseconds, in decimal. *)
Definition stub_toISOString (t : Z) : string := pretty t.

Definition empty_world (t0 : Z) : World := mkWorld ∅ t0 [].

(** The world at a later (or any other) time. *)
Definition at_time (t : Z) (w : World) : World := mkWorld (cache w) t (calls w).

(** The composed result of a finished call, if there is one. *)
Definition composed_of (o : Outcome Any) : option SalaryInfo :=
  match o with
  | Return (Composed r) => Some r
  | _ => None
  end.


Definition thrown_by {A : Type} (o : Outcome A) : option Exn :=
  match o with
  | Throw e => Some e
  | Return _ => None
  end.

End Glassdoor.

(** ** The HTTP handler ([src/index.ts]) *)

Module Index.
Import JsString Cache Glassdoor.

(** The parts of the request the handler reads: [req.method] and the four
    query parameters ([None] when the parameter is absent). *)
Record HttpRequest : Type := mkHttpRequest {
  method : string;
  query_companyName : option string;
  query_jobTitle : option string;
  query_location : option string;
  query_showCacheStats : option string
}.

(** The interface [SalaryData], as the handler fills it in. *)
Record SalaryData : Type := mkResponseBody {
  body_jobTitle : option string;
  body_company : option string;
  body_companyRating : option Q;
  body_location : string;
  body_averageSalary : string;
  body_salaryRange : string;
  body_salaryCount : Z;
  body_source : string;
  body_timestamp : string;
  body_requestTimeMs : Z;
  body_cacheStats : option CacheStats
}.

(** [res.status(n).json(...)] *)
Inductive HttpResponse : Type :=
| Status404 (error message : string)
| Status400 (error : string)
| Status200 (body : SalaryData)
| Status500 (error message requestId timestamp : string).

(** [if (!param)] for a query parameter. *)
Definition missing (param : option string) : bool :=
  match param with
  | Some p => negb (truthy p)
  | None => true
  end.

Definition is_undefined (x : Any) : bool :=
  match x with Undefined => true | _ => false end.

Section Handler.

Variable cfg : Config.
Variable up : Upstream.
Variable toISOString : Z -> string.

(** [JSON.stringify(v).length] for a stored value other than [undefined]. *)
Variable stringify_length : Any -> Z.

(** [Date.now().toString(36) + Math.random().toString(36).substring(2)]:
    the id also holds a random draw, which this function of the clock stands
    for; no property below is about the id. *)
Variable requestId : Z -> string.

(** [getCacheStats()] on the pipeline's store: [JSON.stringify(undefined)] is
    [undefined], whose [length] cannot be read. *)
Definition cache_stats : M CacheStats :=
  fun w =>
    if map_fold (fun _ entry found => (found || is_undefined (value entry))%bool)
         false (cache w)
    then (Throw TypeError, w)
    else (Return (getCacheStats stringify_length (cache w)), w).

(** The [catch] block. *)
Definition internal_error (w : World) : HttpResponse :=
  Status500 "Internal Server Error"
    "Unable to retrieve salary data. Please try again later."
    (requestId (clock w)) (toISOString (clock w)).

Definition findGlassdoorSalary (req : HttpRequest) (w : World) : HttpResponse * World :=
  if negb (String.eqb (method req) "GET") then
    (Status404 "NOT FOUND" "API Not Found", w)
  else if missing (query_jobTitle req) then
    (Status400 "Missing required parameter: jobTitle", w)
  else if missing (query_companyName req) then
    (Status400 "Missing required parameter: companyName", w)
  else
    let startTime := clock w in
    match getSalaryInfo cfg up toISOString
            (default EmptyString (query_companyName req))
            (default EmptyString (query_jobTitle req)) w with
    | (Throw _, w') => (internal_error w', w')
    | (Return Undefined, w') | (Return (Items _), w') => (internal_error w', w')
    | (Return (Composed glassdoorData), w') =>
        let requestTime := clock w' - startTime in
        let salaryData (stats : option CacheStats) :=
          {| body_jobTitle := job_title glassdoorData;
             body_company := company_name glassdoorData;
             body_companyRating := company_rating glassdoorData;
             body_location :=
               if missing (query_location req) then "All locations"
               else default EmptyString (query_location req);
             body_averageSalary := salary_median glassdoorData;
             body_salaryRange := salary_range glassdoorData;
             body_salaryCount := job_salaryCount glassdoorData;
             body_source :=
               source glassdoorData +:+ " (" +:+ pretty (job_salaryCount glassdoorData)
               +:+ " salary reports)";
             body_timestamp := toISOString (clock w');
             body_requestTimeMs := requestTime;
             body_cacheStats := stats |} in
        if bool_decide (query_showCacheStats req = Some "true") then
          match cache_stats w' with
          | (Return stats, w'') => (Status200 (salaryData (Some stats)), w'')
          | (Throw _, w'') => (internal_error w'', w'')
          end
        else (Status200 (salaryData None), w')
    end.

End Handler.

End Index.

(** ** Measures used in the statements below *)

Module Measures.
Import JsString Cache Glassdoor.

(** Every character of [s] satisfies [p]. *)
Fixpoint all_chars (p : ascii -> bool) (s : string) : bool :=
  match s with
  | EmptyString => true
  | String c s' => (p c && all_chars p s')%bool
  end.

Definition is_colon (c : ascii) : bool := Ascii.eqb c ":"%char.

Definition is_name_separator (c : ascii) : bool :=
  (Ascii.eqb c ","%char || Ascii.eqb c "("%char)%bool.

(** The sum of the counts of a [byPrefix] object. *)
Definition bucket_total (m : gmap string Z) : Z :=
  map_fold (fun _ n acc => n + acc) 0 m.

(** Whether [clearCache(prefix)] removes the entry under [key]. *)
Definition cleared (prefix : option string) (key : string) : bool :=
  match prefix with
  | Some p => if truthy p then startsWith key p else true
  | None => true
  end.

(** The time the requests of a list take. *)
Definition total_latency (up : Upstream) (l : list Request) : Z :=
  foldr (fun r acc => latency up r + acc) 0 l.

(** The world of one outbound exchange later. *)
Definition after_call (up : Upstream) (req : Request) (w : World) : World :=
  mkWorld (cache w) (clock w + latency up req) (calls w ++ [req]).

(** A world whose cache holds a company list and a job-title list, written at
    time 0 for 30 days. *)
Definition warm_world : World :=
  mkWorld
    (<[generateCompanyCacheKey "Acme" := mkEntry (Items [acme]) (thirty_days * 1000)]>
       (<[generateJobCacheKey "Engineer" := mkEntry (Items [engineer]) (thirty_days * 1000)]> ∅))
    0 [].

(** No URL is configured. *)
Definition no_config : Config := mkConfig None None.

(** An upstream that answers every call with the given status. *)
Definition failing_upstream (status : Z) : Upstream :=
  {| company_search := fun _ => Responded status (mkCompanyBody None);
     job_autocomplete := fun _ => Responded status [];
     salaries_query := fun _ _ _ => Responded status [];
     latency := fun _ => 0 |}.

End Measures.

Import JsString Cache Glassdoor.

(** * Properties *)

(** ** String primitives *)

Section StringFacts.

Lemma is_white_space_lower (c : ascii) :
  is_white_space (lower_char c) = is_white_space c.
Proof. destruct c as [[] [] [] [] [] [] [] []]; reflexivity. Qed.

Lemma lower_char_idem (c : ascii) : lower_char (lower_char c) = lower_char c.
Proof. destruct c as [[] [] [] [] [] [] [] []]; reflexivity. Qed.

Lemma toLowerCase_idem (s : string) : toLowerCase (toLowerCase s) = toLowerCase s.
Proof.
  induction s as [|c s IH]; simpl; [reflexivity|].
  now rewrite lower_char_idem, IH.
Qed.

Lemma trimStart_lower (s : string) :
  trimStart (toLowerCase s) = toLowerCase (trimStart s).
Proof.
  induction s as [|c s IH]; simpl; [reflexivity|].
  rewrite is_white_space_lower.
  destruct (is_white_space c); [exact IH | reflexivity].
Qed.

Lemma trimEnd_lower (s : string) :
  trimEnd (toLowerCase s) = toLowerCase (trimEnd s).
Proof.
  induction s as [|c s IH]; simpl; [reflexivity|].
  rewrite IH, is_white_space_lower.
  destruct (trimEnd s); simpl; [|reflexivity].
  destruct (is_white_space c); reflexivity.
Qed.

Lemma trim_lower (s : string) : trim (toLowerCase s) = toLowerCase (trim s).
Proof. unfold trim. now rewrite trimStart_lower, trimEnd_lower. Qed.

Lemma trimStart_no_leading_space (s : string) : no_leading_space (trimStart s).
Proof.
  induction s as [|c s IH]; simpl; [exact I|].
  destruct (is_white_space c) eqn:E; [exact IH | exact E].
Qed.

Lemma trimStart_fixed (s : string) : no_leading_space s -> trimStart s = s.
Proof. destruct s as [|c s]; simpl; [reflexivity|]. now intros ->. Qed.

Lemma trimEnd_no_leading_space (s : string) :
  no_leading_space s -> no_leading_space (trimEnd s).
Proof.
  destruct s as [|c s]; simpl; [trivial|]. intros H.
  destruct (trimEnd s); [rewrite H|]; exact H.
Qed.

Lemma trimEnd_idem (s : string) : trimEnd (trimEnd s) = trimEnd s.
Proof.
  induction s as [|c s IH]; simpl; [reflexivity|].
  destruct (trimEnd s) as [|d r] eqn:E.
  - destruct (is_white_space c) eqn:W; simpl; [reflexivity|]. now rewrite W.
  - change (trimEnd (String c (String d r))) with
      (match trimEnd (String d r) with
       | EmptyString => if is_white_space c then EmptyString else String c EmptyString
       | x => String c x
       end).
    now rewrite IH.
Qed.

Lemma trim_idem (s : string) : trim (trim s) = trim s.
Proof.
  unfold trim.
  rewrite (trimStart_fixed (trimEnd (trimStart s))).
  - apply trimEnd_idem.
  - apply trimEnd_no_leading_space, trimStart_no_leading_space.
Qed.

Lemma normalize_idem (s : string) : normalize (normalize s) = normalize s.
Proof.
  unfold normalize. now rewrite trim_lower, trim_idem, toLowerCase_idem.
Qed.

Lemma startsWith_split_first (sep : ascii -> bool) (s : string) :
  startsWith s (split_first sep s) = true.
Proof.
  induction s as [|c s IH]; simpl; [reflexivity|].
  destruct (sep c); simpl; [reflexivity|].
  now rewrite Ascii.eqb_refl, IH.
Qed.

End StringFacts.

(** ** Cache keys *)

(** C7: each key generator is its namespace tag, [":"] and the parts
    normalized by the runtime's [trim] followed by its [toLowerCase], the two
    parts of the combined key joined by [":"]; so, for all inputs, parts whose
    normalizations agree give the same key.  On a runtime whose [trim] and
    [toLowerCase] act on ASCII strings as JS specifies, the keys of
    [("Foo  ", "BAR")] and [(" foo", "bar ")] are both ["salary:foo:bar"].
    The generators the pipeline uses are these at the ASCII operations. *)
Theorem cache_key_normalization (ops : StringOps) (c c' j j' : string) :
  agrees_on_ascii ops ->
  normalizeWith ops c = normalizeWith ops c' ->
  normalizeWith ops j = normalizeWith ops j' ->
  generateCacheKeyWith ops c j
  = "salary:" +:+ normalizeWith ops c +:+ ":" +:+ normalizeWith ops j /\
  generateCompanyCacheKeyWith ops c = "company:" +:+ normalizeWith ops c /\
  generateJobCacheKeyWith ops j = "job:" +:+ normalizeWith ops j /\
  generateCacheKeyWith ops c j = generateCacheKeyWith ops c' j' /\
  generateCompanyCacheKeyWith ops c = generateCompanyCacheKeyWith ops c' /\
  generateJobCacheKeyWith ops j = generateJobCacheKeyWith ops j' /\
  generateCacheKeyWith ops "Foo  " "BAR" = generateCacheKeyWith ops " foo" "bar " /\
  generateCacheKeyWith ops "Foo  " "BAR" = "salary:foo:bar" /\
  generateCacheKey c j = generateCacheKeyWith ascii_ops c j /\
  generateCompanyCacheKey c = generateCompanyCacheKeyWith ascii_ops c /\
  generateJobCacheKey j = generateJobCacheKeyWith ascii_ops j.
Proof.
  intros Hops Hc Hj.
  assert (Kc : forall x, generateCompanyCacheKeyWith ops x = "company:" +:+ normalizeWith ops x)
    by reflexivity.
  assert (Kj : forall x, generateJobCacheKeyWith ops x = "job:" +:+ normalizeWith ops x)
    by reflexivity.
  assert (K : forall x y,
             generateCacheKeyWith ops x y
             = "salary:" +:+ normalizeWith ops x +:+ ":" +:+ normalizeWith ops y)
    by reflexivity.
  assert (N : forall s, ascii_string s = true -> ascii_string (trim s) = true ->
                        normalizeWith ops s = normalize s).
  { intros s Hs Ht. unfold normalizeWith, normalize.
    destruct (Hops s Hs) as [-> _]. now destruct (Hops (trim s) Ht) as [_ ->]. }
  assert (E : generateCacheKeyWith ops "Foo  " "BAR" = "salary:foo:bar"
              /\ generateCacheKeyWith ops " foo" "bar " = "salary:foo:bar").
  { rewrite !K. rewrite !N by reflexivity. split; reflexivity. }
  destruct E as [E1 E2].
  split; [apply K|]. split; [apply Kc|]. split; [apply Kj|].
  split; [now rewrite !K, Hc, Hj|].
  split; [now rewrite !Kc, Hc|].
  split; [now rewrite !Kj, Hj|].
  split; [now rewrite E1, E2|].
  split; [exact E1|]. repeat split.
Qed.

Lemma cache_key_normalization_witness :
  generateCacheKeyWith ascii_ops "Acme Corp " "ENGINEER"
  = generateCacheKeyWith ascii_ops " acme corp" "engineer".
Proof.
  apply (cache_key_normalization ascii_ops "Acme Corp " " acme corp" "ENGINEER" "engineer");
    [intros s _; split; reflexivity | reflexivity | reflexivity].
Defined.

(** ** The cache store *)

Section CacheFacts.

Context {T : Type}.
Variable stringify_length : T -> Z.

Implicit Types (c : gmap string (CacheEntry T)) (k : string) (e : CacheEntry T).

Lemma stats_step_comm k1 k2 e1 e2 (st : CacheStats) :
  stats_step stringify_length k1 e1 (stats_step stringify_length k2 e2 st) =
  stats_step stringify_length k2 e2 (stats_step stringify_length k1 e1 st).
Proof.
  unfold stats_step; simpl.
  destruct (decide (prefix_segment k1 = prefix_segment k2)) as [->|Hne].
  - f_equal; first [lia | reflexivity].
  - f_equal; [|lia].
    rewrite !lookup_insert_ne by congruence.
    apply insert_insert_ne. congruence.
Qed.

Lemma getCacheStats_empty :
  getCacheStats stringify_length (∅ : gmap string (CacheEntry T)) = mkStats 0 ∅ 0.
Proof. unfold getCacheStats. apply map_fold_empty. Qed.

Lemma getCacheStats_insert c k e :
  c !! k = None ->
  getCacheStats stringify_length (<[k := e]> c) =
  stats_step stringify_length k e (getCacheStats stringify_length c).
Proof.
  intros Hk. unfold getCacheStats.
  apply map_fold_insert_L; [|exact Hk].
  intros; apply stats_step_comm.
Qed.

Lemma getCacheStats_delete c k e :
  c !! k = Some e ->
  getCacheStats stringify_length c =
  stats_step stringify_length k e (getCacheStats stringify_length (delete k c)).
Proof.
  intros Hk. unfold getCacheStats.
  apply map_fold_delete_L; [|exact Hk].
  intros; apply stats_step_comm.
Qed.

Lemma totalEntries_size c :
  totalEntries (getCacheStats stringify_length c) = Z.of_nat (size c).
Proof.
  induction c as [|k e c Hk IH] using map_ind.
  - now rewrite getCacheStats_empty, map_size_empty.
  - rewrite getCacheStats_insert, map_size_insert_None by exact Hk.
    simpl. rewrite IH. lia.
Qed.

Lemma byPrefix_nonneg c p n :
  byPrefix (getCacheStats stringify_length c) !! p = Some n -> 1 <= n.
Proof.
  revert n. induction c as [|k e c Hk IH] using map_ind; intros n.
  - rewrite getCacheStats_empty. simpl. now rewrite lookup_empty.
  - rewrite getCacheStats_insert by exact Hk. simpl.
    destruct (decide (prefix_segment k = p)) as [Heq|Hne].
    + rewrite Heq, lookup_insert_eq. intros [= <-].
      destruct (byPrefix (getCacheStats stringify_length c) !! p)
        as [m|] eqn:E; simpl; [specialize (IH m eq_refl)|]; lia.
    + rewrite lookup_insert_ne by exact Hne. apply IH.
Qed.

Lemma byPrefix_bucket_size c p :
  default 0 (byPrefix (getCacheStats stringify_length c) !! p)
  = Z.of_nat (size (filter (fun kv => prefix_segment (fst kv) = p) c)).
Proof.
  induction c as [|k e c Hk IH] using map_ind.
  - now rewrite getCacheStats_empty, map_filter_empty, map_size_empty.
  - rewrite getCacheStats_insert by exact Hk. simpl.
    destruct (decide (prefix_segment k = p)) as [Heq|Hne].
    + rewrite Heq, lookup_insert_eq. simpl.
      rewrite map_filter_insert_True by exact Heq.
      rewrite map_size_insert_None
        by (apply map_lookup_filter_None; left; exact Hk).
      rewrite IH. lia.
    + rewrite lookup_insert_ne by exact Hne.
      rewrite map_filter_insert_False by exact Hne.
      now rewrite delete_id by exact Hk.
Qed.


End CacheFacts.

Lemma getCacheStats_js_Some {T : Type} (stringify : T -> option Z)
    (c : gmap string (CacheEntry T)) :
  serializable stringify c ->
  getCacheStats_js stringify c
  = Some (getCacheStats (fun v => default 0 (stringify v)) c).
Proof. intros H. unfold getCacheStats_js. now destruct (decide _). Qed.

Lemma serializable_set {T : Type} (stringify : T -> option Z)
    (c : gmap string (CacheEntry T)) (k : string) (v : T) (now ttl : Z) :
  serializable stringify c -> is_Some (stringify v) ->
  serializable stringify (setCacheValue now k v ttl c).
Proof. intros Hc Hv. now apply map_Forall_insert_2. Qed.

Lemma serializable_delete {T : Type} (stringify : T -> option Z)
    (c : gmap string (CacheEntry T)) (k : string) :
  serializable stringify c -> serializable stringify (delete k c).
Proof. apply map_Forall_delete. Qed.



Lemma clearCache_lookup {T : Type} (c : gmap string (CacheEntry T)) (p k : string) :
  truthy p = true ->
  clearCache (Some p) c !! k = if startsWith k p then None else c !! k.
Proof.
  intros Hp. unfold clearCache. rewrite Hp.
  rewrite map_lookup_filter. simpl.
  destruct (c !! k) as [e|] eqn:E; simpl.
  - destruct (startsWith k p) eqn:S.
    + rewrite option_guard_False by (simpl; congruence). reflexivity.
    + rewrite option_guard_True by (simpl; congruence). reflexivity.
  - now destruct (startsWith k p).
Qed.

Lemma getCacheValue_live {T : Type} (c : gmap string (CacheEntry T)) (k : string)
    (e : CacheEntry T) (now : Z) :
  c !! k = Some e -> now <= expiresAt e ->
  getCacheValue now k c = (Some (value e), c).
Proof.
  intros Hk Hle. unfold getCacheValue. rewrite Hk.
  destruct (now >? expiresAt e) eqn:G; [lia | reflexivity].
Qed.

Lemma getCacheValue_expired {T : Type} (c : gmap string (CacheEntry T)) (k : string)
    (e : CacheEntry T) (now : Z) :
  c !! k = Some e -> expiresAt e < now ->
  getCacheValue now k c = (None, delete k c).
Proof.
  intros Hk Hlt. unfold getCacheValue. rewrite Hk.
  destruct (now >? expiresAt e) eqn:G; [reflexivity | lia].
Qed.

Lemma getCacheValue_other {T : Type} (c : gmap string (CacheEntry T)) (j k : string)
    (now : Z) :
  j <> k -> snd (getCacheValue now j c) !! k = c !! k.
Proof.
  intros Hne. unfold getCacheValue.
  destruct (c !! j) as [e|]; [|reflexivity].
  destruct (now >? expiresAt e); simpl; [|reflexivity].
  now apply lookup_delete_ne.
Qed.

(** C2 (as stated, refuted): exactly 60 seconds after [setCacheValue(k, v, 60)]
    the value is still returned and the entry is still counted. *)
Lemma cache_entry_live_at_ttl_boundary :
  fst (getCacheValue (0 + 60 * 1000) "k"
         (setCacheValue 0 "k" 7 60 (∅ : gmap string (CacheEntry Z)))) = Some 7 /\
  totalEntries (getCacheStats (fun _ : Z => 1)
    (snd (getCacheValue (0 + 60 * 1000) "k"
            (setCacheValue 0 "k" 7 60 (∅ : gmap string (CacheEntry Z)))))) = 1.
Proof. split; vm_compute; reflexivity. Qed.

(** C2 (amended): for a key that is not the name of a member of
    [Object.prototype] and a value that serializes, in a store whose values
    serialize: after [setCacheValue(k, v, 60)] at time [now], a read at any
    time up to and including [now + 60000] ms returns [v] and leaves the store
    as it is; a read strictly later returns [null], deletes the entry, and
    [getCacheStats().totalEntries] is one less than before the read; and
    [getCacheValue] only ever returns the value of an entry whose [expiresAt]
    is not earlier than the time of the read. *)
Theorem cache_roundtrip_ttl {T : Type} (stringify : T -> option Z)
    (c : gmap string (CacheEntry T)) (k : string) (v : T) (now t : Z) :
  plain_name k = true ->
  is_Some (stringify v) ->
  serializable stringify c ->
  (t <= now + 60 * 1000 ->
     getCacheValue t k (setCacheValue now k v 60 c)
     = (Some v, setCacheValue now k v 60 c)) /\
  (now + 60 * 1000 < t ->
     fst (getCacheValue t k (setCacheValue now k v 60 c)) = None /\
     snd (getCacheValue t k (setCacheValue now k v 60 c)) !! k = None /\
     exists before after,
       getCacheStats_js stringify (setCacheValue now k v 60 c) = Some before /\
       getCacheStats_js stringify (snd (getCacheValue t k (setCacheValue now k v 60 c)))
       = Some after /\
       totalEntries before = Z.of_nat (size (setCacheValue now k v 60 c)) /\
       totalEntries after = totalEntries before - 1) /\
  (forall (c0 : gmap string (CacheEntry T)) (k0 : string) (v0 : T),
     plain_name k0 = true ->
     fst (getCacheValue t k0 c0) = Some v0 ->
     exists e, c0 !! k0 = Some e /\ value e = v0 /\ t <= expiresAt e).
Proof.
  intros _ Hv Hc.
  assert (Hset : setCacheValue now k v 60 c !! k = Some (mkEntry v (now + 60 * 1000)))
    by apply lookup_insert_eq.
  pose proof (serializable_set stringify c k v now 60 Hc Hv) as Hc'.
  split; [|split].
  - intros Ht. now rewrite (getCacheValue_live _ _ _ _ Hset) by (simpl; lia).
  - intros Ht.
    rewrite (getCacheValue_expired _ _ _ _ Hset) by (simpl; lia). simpl.
    split; [reflexivity|]. split; [apply lookup_delete_eq|].
    eexists _, _.
    split; [now apply getCacheStats_js_Some|].
    split; [now apply getCacheStats_js_Some, serializable_delete|].
    split; [apply totalEntries_size|].
    rewrite (getCacheStats_delete _ _ _ _ Hset). simpl. lia.
  - intros c0 k0 v0 _. unfold getCacheValue.
    destruct (c0 !! k0) as [e|]; [|discriminate].
    destruct (t >? expiresAt e) eqn:G; [discriminate|].
    simpl. intros [= <-]. exists e. repeat split. lia.
Qed.

Lemma cache_roundtrip_ttl_witness :
  getCacheValue 5 "k" (setCacheValue 5 "k" 7 60 (∅ : gmap string (CacheEntry Z)))
  = (Some 7, setCacheValue 5 "k" 7 60 ∅) /\
  fst (getCacheValue 60006 "k" (setCacheValue 5 "k" 7 60 (∅ : gmap string (CacheEntry Z))))
  = None.
Proof.
  split.
  - apply (cache_roundtrip_ttl (fun _ => Some 1) ∅ "k" 7 5 5 eq_refl);
      [now eexists | apply map_Forall_empty | lia].
  - apply (cache_roundtrip_ttl (fun _ => Some 1) ∅ "k" 7 5 60006 eq_refl);
      [now eexists | apply map_Forall_empty | lia].
Defined.

(** C8 (as stated, refuted): [clearCache("company")] also removes the entry
    under ["companyx:a"], whose prefix segment is ["companyx"]. *)
Lemma clearCache_prefix_collision :
  prefix_segment "companyx:a" <> "company" /\
  collision_cache !! "companyx:a" = Some (mkEntry 1 0) /\
  clearCache (Some "company") collision_cache !! "companyx:a" = None.
Proof. repeat split; vm_compute; congruence. Qed.

(** C8 (amended): [clearCache(p)] with a non-empty [p] removes exactly the
    entries whose key starts with the string [p] and leaves every other entry
    as it is; so [clearCache("company")] removes every entry whose prefix
    segment is ["company"] and keeps the entry under ["job:x"]; with no
    prefix (or an empty one) every entry is removed. *)
Theorem clearCache_frame {T : Type} (c : gmap string (CacheEntry T)) (p k : string) :
  truthy p = true ->
  clearCache (Some p) c !! k = (if startsWith k p then None else c !! k) /\
  (prefix_segment k = "company" -> clearCache (Some "company") c !! k = None) /\
  clearCache (Some "company") c !! "job:x" = c !! "job:x" /\
  clearCache None c = ∅ /\
  clearCache (Some EmptyString) c = ∅.
Proof.
  intros Hp. split; [now apply clearCache_lookup|].
  split; [|split; [|split; reflexivity]].
  - intros Hseg. rewrite clearCache_lookup by reflexivity.
    rewrite <- Hseg. unfold prefix_segment.
    now rewrite startsWith_split_first.
  - now rewrite clearCache_lookup by reflexivity.
Qed.

Lemma clearCache_frame_witness :
  clearCache (Some "company") collision_cache !! "job:x" = Some (mkEntry 2 0) /\
  clearCache (Some "company") collision_cache !! "company:acme" = None.
Proof.
  split.
  - destruct (clearCache_frame collision_cache "company" "job:x" eq_refl)
      as (H & _). rewrite H. reflexivity.
  - destruct (clearCache_frame collision_cache "company" "company:acme" eq_refl)
      as (_ & H & _). apply H. reflexivity.
Defined.



(** ** Formatting helpers *)

Lemma round_div_nearest (n d : Z) :
  0 < d -> 2 * d * round_div n d <= 2 * n + d < 2 * d * (round_div n d + 1).
Proof.
  intros Hd. unfold round_div.
  pose proof (Z.mul_div_le (2 * n + d) (2 * d) ltac:(lia)).
  pose proof (Z.mul_succ_div_gt (2 * n + d) (2 * d) ltac:(lia)).
  lia.
Qed.

Lemma currencySymbol_plain (code : string) :
  plain_name code = true -> currencySymbol (Some code) = spec_currency_symbol code.
Proof.
  intros Hplain.
  assert (Hnone : inherited_member_text code = None).
  { unfold inherited_member_text.
    destruct (String.eqb_spec code "__proto__") as [->|_]; [discriminate|].
    destruct (String.eqb_spec code "constructor") as [->|_]; [discriminate|].
    unfold plain_name in Hplain. apply negb_true_iff in Hplain. now rewrite Hplain. }
  unfold currencySymbol, currencySymbols, spec_currency_symbol.
  cbv zeta. change (default "undefined" (Some code)) with code.
  repeat match goal with
         | |- context [String.eqb code ?s] =>
             destruct (String.eqb_spec code s) as [->|?]; [reflexivity|]
         end.
  rewrite Hnone. change (default EmptyString None) with EmptyString.
  repeat (case_decide; [congruence|]). reflexivity.
Qed.

Lemma formatSalary_cases (amount : Z) (currency : option string) :
  amount <> 0 ->
  formatSalary (Some amount) currency =
  if amount >=? 10000000 then
    currencySymbol currency +:+ pretty (round_div amount 10000000) +:+ " cr"
  else if amount >=? 100000 then
    currencySymbol currency +:+ pretty (round_div amount 100000) +:+ " lakh"
  else if amount >=? 1000 then
    currencySymbol currency +:+ pretty (round_div amount 1000) +:+ " k"
  else currencySymbol currency +:+ pretty amount.
Proof. destruct amount; [congruence | reflexivity | reflexivity]. Qed.

(** C3: for the currency code ["toString"] the symbol that [formatSalary]
    reads from its table is not empty: the object literal inherits a member
    of that name, and the [|| ''] fallback does not apply to it.  So
    [formatSalary(500, "toString")] is the text of that function followed by
    ["500"], where an unknown code should give the empty symbol and ["500"];
    and so for every name of [Object.prototype].  The five sample values of
    the specification hold. *)
Theorem formatSalary_inherited_symbol :
  formatSalary (Some 500) (Some "toString") = "function toString() { [native code] }500" /\
  formatSalary (Some 500) (Some "toString") <> "500" /\
  spec_currency_symbol "toString" = EmptyString /\
  Forall (fun code => formatSalary (Some 500) (Some code) <> "500")
    object_prototype_members /\
  formatSalary (Some 12000000) (Some "USD") = "$1 cr" /\
  formatSalary (Some 250000) (Some "INR") = "₹3 lakh" /\
  formatSalary (Some 5000) (Some "EUR") = "€5 k" /\
  formatSalary (Some 0) (Some "USD") = "N/A" /\
  formatSalary (Some 500) (Some "ZZZ") = "500".
Proof.
  split; [reflexivity|]. split; [discriminate|]. split; [reflexivity|].
  split; [repeat constructor; discriminate|].
  repeat split; reflexivity.
Qed.

(** X28: the table of [formatSalary], for whole amounts below 4 * 10^15 in
    absolute value and a currency code that is not the name of a member of
    [Object.prototype]: the symbol is that of INR, GBP, USD, EUR, JPY, AUD,
    CAD and empty for any other code; an undefined or zero amount gives
    ["N/A"]; an amount of at least 10,000,000 gives the symbol, the amount
    divided by 10,000,000 and rounded to the nearest integer (a tie going
    up), and [" cr"]; at least 100,000 likewise with [" lakh"]; at least
    1,000 likewise with [" k"]; any smaller non-zero amount gives the symbol
    and the amount itself. *)
Theorem formatSalary_table (amount : Z) (code : string) :
  amount <> 0 ->
  - 4 * 10 ^ 15 < amount < 4 * 10 ^ 15 ->
  plain_name code = true ->
  formatSalary None (Some code) = "N/A" /\
  formatSalary (Some 0) (Some code) = "N/A" /\
  (10000000 <= amount ->
     formatSalary (Some amount) (Some code)
     = spec_currency_symbol code +:+ pretty (round_div amount 10000000) +:+ " cr") /\
  (100000 <= amount < 10000000 ->
     formatSalary (Some amount) (Some code)
     = spec_currency_symbol code +:+ pretty (round_div amount 100000) +:+ " lakh") /\
  (1000 <= amount < 100000 ->
     formatSalary (Some amount) (Some code)
     = spec_currency_symbol code +:+ pretty (round_div amount 1000) +:+ " k") /\
  (amount < 1000 ->
     formatSalary (Some amount) (Some code) = spec_currency_symbol code +:+ pretty amount) /\
  (forall d, 0 < d ->
     2 * d * round_div amount d <= 2 * amount + d < 2 * d * (round_div amount d + 1)).
Proof.
  intros Hnz _ Hplain.
  pose proof (formatSalary_cases amount (Some code) Hnz) as Hf.
  rewrite (currencySymbol_plain code Hplain) in Hf.
  rewrite !Z.geb_leb in Hf.
  split; [reflexivity|]. split; [reflexivity|].
  split; [|split; [|split; [|split]]].
  - intros H. rewrite Hf.
    destruct (Z.leb_spec 10000000 amount); [reflexivity | lia].
  - intros H. rewrite Hf.
    destruct (Z.leb_spec 10000000 amount); [lia|].
    destruct (Z.leb_spec 100000 amount); [reflexivity | lia].
  - intros H. rewrite Hf.
    destruct (Z.leb_spec 10000000 amount); [lia|].
    destruct (Z.leb_spec 100000 amount); [lia|].
    destruct (Z.leb_spec 1000 amount); [reflexivity | lia].
  - intros H. rewrite Hf.
    destruct (Z.leb_spec 10000000 amount); [lia|].
    destruct (Z.leb_spec 100000 amount); [lia|].
    destruct (Z.leb_spec 1000 amount); [lia | reflexivity].
  - intros d Hd; now apply round_div_nearest.
Qed.

Lemma formatSalary_table_witness :
  formatSalary (Some 83500) (Some "GBP") = "£84 k" /\
  formatSalary (Some 999) (Some "CAD") = "C$999".
Proof.
  destruct (formatSalary_table 83500 "GBP" ltac:(discriminate) ltac:(lia) eq_refl)
    as (_ & _ & _ & _ & Hk & _).
  destruct (formatSalary_table 999 "CAD" ltac:(discriminate) ltac:(lia) eq_refl)
    as (_ & _ & _ & _ & _ & Hraw & _).
  split.
  - rewrite Hk by lia. reflexivity.
  - rewrite Hraw by lia. reflexivity.
Defined.

(** C6: on ["a_b"] the sanitizer returns ["a_b"]: the underscore, which is
    neither alphanumeric nor white space, is a word character of [\w] and is
    kept, against the comment in the source ("keeping only alphanumeric
    characters and spaces").  The three sample values of the specification
    hold. *)
Theorem formatName_keeps_underscore :
  formatName "a_b" = "a_b" /\
  formatName "Google, Inc." = "Google" /\
  formatName "Example (UK) Ltd" = "Example" /\
  formatName EmptyString = EmptyString.
Proof. repeat split; reflexivity. Qed.

(** ** The lookup pipeline *)

Section PipelineFacts.

Variable cfg : Config.
Variable up : Upstream.
Variable toISOString : Z -> string.

Lemma cache_get_live (key : string) (w : World) (e : CacheEntry Any) :
  cache w !! key = Some e -> clock w <= expiresAt e ->
  cache_get key w = (Return (Some (value e)), w).
Proof.
  intros Hk Hle. unfold cache_get.
  rewrite (getCacheValue_live _ _ _ _ Hk Hle). now destruct w.
Qed.

Lemma cache_get_absent (key : string) (w : World) :
  cache w !! key = None -> cache_get key w = (Return None, w).
Proof.
  intros Hk. unfold cache_get, getCacheValue. rewrite Hk. now destruct w.
Qed.

Lemma fetchSalaries_run (companyId jobId : option Z) (jobTitle : option string)
    (status : Z) (body : list SalaryBatch) (w : World) :
  configured (graphUrl cfg) = true ->
  salaries_query up companyId jobId jobTitle = Responded status body ->
  ok status = true ->
  fetchSalaries cfg up companyId jobId jobTitle w =
  (match b ← head body; salary_data b with
   | None => Return []
   | Some data =>
       match aggregatedSalaryEstimates data with
       | None => Throw TypeError
       | Some estimates => Return (default [] (results estimates))
       end
   end,
   mkWorld (cache w)
     (clock w + latency up (EiSalariesGraphQuery companyId jobId jobTitle))
     (calls w ++ [EiSalariesGraphQuery companyId jobId jobTitle])).
Proof.
  intros Hcfg Hreply Hok. unfold fetchSalaries, bind, fetch.
  rewrite Hcfg, Hreply. simpl. rewrite Hok. simpl.
  destruct (head body ≫= salary_data) as [d|]; [|reflexivity].
  destruct (aggregatedSalaryEstimates d); reflexivity.
Qed.

End PipelineFacts.

(** C9: once the salary query has answered with a success status,
    [fetchSalaries] returns the empty list when the batched response has no
    first element or the first element has no [data]; it throws a [TypeError]
    when [data] is there and [aggregatedSalaryEstimates] is not; otherwise it
    returns [results] (the empty list when that is absent).  A payload of the
    throwing kind exists. *)
Theorem fetchSalaries_extraction_partial (cfg : Config) (up : Upstream)
    (companyId jobId : option Z) (jobTitle : option string)
    (status : Z) (body : list SalaryBatch) (w : World) :
  configured (graphUrl cfg) = true ->
  salaries_query up companyId jobId jobTitle = Responded status body ->
  ok status = true ->
  (body = [] ->
     fst (fetchSalaries cfg up companyId jobId jobTitle w) = Return []) /\
  (forall b rest, body = b :: rest -> salary_data b = None ->
     fst (fetchSalaries cfg up companyId jobId jobTitle w) = Return []) /\
  (forall b rest d, body = b :: rest -> salary_data b = Some d ->
     aggregatedSalaryEstimates d = None ->
     fst (fetchSalaries cfg up companyId jobId jobTitle w) = Throw TypeError) /\
  (forall b rest d a, body = b :: rest -> salary_data b = Some d ->
     aggregatedSalaryEstimates d = Some a ->
     fst (fetchSalaries cfg up companyId jobId jobTitle w)
     = Return (default [] (results a))) /\
  (exists b d, no_estimates_body = [b] /\ salary_data b = Some d /\
               aggregatedSalaryEstimates d = None).
Proof.
  intros Hcfg Hreply Hok.
  rewrite (fetchSalaries_run cfg up _ _ _ _ _ w Hcfg Hreply Hok). simpl.
  split; [intros ->; reflexivity|].
  split; [intros b rest -> Hb; simpl; now rewrite Hb|].
  split; [intros b rest d -> Hb Hd; simpl; now rewrite Hb, Hd|].
  split; [intros b rest d a -> Hb Hd; simpl; now rewrite Hb, Hd|].
  eexists _, _. repeat split.
Qed.

Lemma fetchSalaries_extraction_partial_witness :
  fst (fetchSalaries stub_config
         (stub_upstream [acme] [engineer] no_estimates_body (fun _ => 0))
         (Some 1) (Some 9) (Some "Engineer") (empty_world 0))
  = Throw TypeError.
Proof.
  destruct (fetchSalaries_extraction_partial stub_config
              (stub_upstream [acme] [engineer] no_estimates_body (fun _ => 0))
              (Some 1) (Some 9) (Some "Engineer") 200 no_estimates_body
              (empty_world 0) eq_refl eq_refl eq_refl)
    as (_ & _ & H & _).
  exact (H _ _ _ eq_refl eq_refl eq_refl).
Defined.

Section OrchestratorFacts.

Variable cfg : Config.
Variable up : Upstream.
Variable toISOString : Z -> string.

Lemma cache_get_inv (key : string) (w w1 : World) (o : Outcome (option Any)) :
  cache_get key w = (o, w1) ->
  calls w1 = calls w /\ clock w1 = clock w /\
  exists v, o = Return v /\
    match v with
    | Some x =>
        w1 = w /\
        exists e, cache w !! key = Some e /\ value e = x /\ clock w <= expiresAt e
    | None => cache w1 !! key = None
    end.
Proof.
  unfold cache_get, getCacheValue. intros H.
  destruct (cache w !! key) as [e|] eqn:E.
  - destruct (clock w >? expiresAt e) eqn:G; simplify_eq; simpl.
    + do 2 (split; [reflexivity|]).
      eexists; split; [reflexivity|]. apply lookup_delete_eq.
    + do 2 (split; [reflexivity|]).
      eexists; split; [reflexivity|].
      split; [now destruct w|]. exists e.
      split; [first [exact E | reflexivity]|]. split; [reflexivity | lia].
  - simplify_eq; simpl. do 2 (split; [reflexivity|]).
    eexists; split; [reflexivity|]. first [exact E | reflexivity].
Qed.




Lemma getSalaryInfo_hit (cn jt : string) (w : World) (e : CacheEntry Any) :
  cache w !! generateCacheKey cn jt = Some e ->
  clock w <= expiresAt e ->
  truthy_value (Some (value e)) = true ->
  getSalaryInfo cfg up toISOString cn jt w = (Return (value e), w).
Proof.
  intros Hk Hle Ht. unfold getSalaryInfo, bind.
  rewrite (cache_get_live _ _ _ Hk Hle), Ht. reflexivity.
Qed.

Lemma getSalaryInfo_miss (cn jt : string) (w w1 : World) (v : option Any) :
  cache_get (generateCacheKey cn jt) w = (Return v, w1) ->
  truthy_value v = false ->
  getSalaryInfo cfg up toISOString cn jt w =
  bind (fetchGlassdoorCompanies cfg up (formatName cn))
    (fun companies =>
       match companies with
       | Undefined | Items [] =>
           throw (Error ("No company found matching '" +:+ cn +:+ "'"))
       | Composed _ => throw TypeError
       | Items (c :: _) =>
           bind (fetchJobTitles cfg up (formatName jt))
             (fun jobs =>
                match jobs with
                | Undefined | Items [] =>
                    throw (Error ("No job titles found matching '" +:+ jt +:+ "'"))
                | Composed _ => throw TypeError
                | Items (j :: _) =>
                    bind (fetchSalaries cfg up (id c) (id j) (label j))
                      (fun salaries =>
                         bind date_now
                           (fun now =>
                              let result :=
                                compose toISOString c j
                                  (default empty_salary (head salaries)) now in
                              bind (cache_set (generateCacheKey cn jt)
                                      (Composed result) fifteen_days)
                                (fun _ => ret (Composed result))))
                end)
       end) w1.
Proof.
  intros Hget Hv. unfold getSalaryInfo at 1. unfold bind at 1.
  rewrite Hget, Hv. reflexivity.
Qed.

Lemma getSalaryInfo_return_cached (cn jt : string) (w w' : World) (r : Any) :
  getSalaryInfo cfg up toISOString cn jt w = (Return r, w') ->
  exists e, cache w' !! generateCacheKey cn jt = Some e /\
            value e = r /\ clock w' <= expiresAt e.
Proof.
  destruct (cache_get (generateCacheKey cn jt) w) as [o1 w1] eqn:Hget.
  pose proof Hget as Hinv.
  apply cache_get_inv in Hinv as (_ & _ & v & -> & Hv).
  destruct (truthy_value v) eqn:Ht.
  - unfold getSalaryInfo, bind. rewrite Hget, Ht. unfold ret.
    destruct v as [x|]; [|discriminate].
    destruct Hv as (-> & e & He & Hval & Hle).
    intros [= <- <-]. simpl. now exists e.
  - rewrite (getSalaryInfo_miss _ _ _ _ _ Hget Ht). unfold bind.
    destruct (fetchGlassdoorCompanies _ _ _ _) as [[[| [|c cs] |]|] w2];
      try (unfold throw; discriminate).
    destruct (fetchJobTitles _ _ _ _) as [[[| [|j js] |]|] w3];
      try (unfold throw; discriminate).
    destruct (fetchSalaries _ _ _ _ _ _) as [[l|] w4]; [|discriminate].
    unfold date_now, cache_set, ret. simpl.
    intros [= <- <-]. simpl. eexists. split; [apply lookup_insert_eq|].
    simpl. split; [reflexivity|]. unfold fifteen_days. lia.
Qed.


Lemma getSalaryInfo_miss_writes (cn jt : string) (w w1 w' : World)
    (v : option Any) (r : Any) :
  cache_get (generateCacheKey cn jt) w = (Return v, w1) ->
  truthy_value v = false ->
  getSalaryInfo cfg up toISOString cn jt w = (Return r, w') ->
  cache w' !! generateCacheKey cn jt
  = Some (mkEntry r (clock w' + fifteen_days * 1000)).
Proof.
  intros Hget Ht.
  rewrite (getSalaryInfo_miss _ _ _ _ _ Hget Ht). unfold bind.
  destruct (fetchGlassdoorCompanies _ _ _ _) as [[[| [|c cs] |]|] w2];
    try (unfold throw; discriminate).
  destruct (fetchJobTitles _ _ _ _) as [[[| [|j js] |]|] w3];
    try (unfold throw; discriminate).
  destruct (fetchSalaries _ _ _ _ _ _) as [[l|] w4]; [|discriminate].
  unfold date_now, cache_set, ret. simpl.
  intros [= <- <-]. simpl. apply lookup_insert_eq.
Qed.

End OrchestratorFacts.

(** C5: after a miss on the combined cache entry, an undefined or empty
    company-lookup result makes [getSalaryInfo] throw "No company found
    matching ..."; a non-empty company list followed by an empty job-title
    result makes it throw "No job titles found matching ..."; an empty
    salary-lookup result does not throw: the result is composed from the
    empty placeholder record ([salaryCount] 0, ["N/A"] for every formatted
    value), stored under the combined key for 15 days and returned. *)
Theorem getSalaryInfo_empty_results (cfg : Config) (up : Upstream)
    (toISOString : Z -> string) (cn jt : string) (w w1 : World) (v : option Any) :
  cache_get (generateCacheKey cn jt) w = (Return v, w1) ->
  truthy_value v = false ->
  (forall r w2,
     fetchGlassdoorCompanies cfg up (formatName cn) w1 = (Return r, w2) ->
     r = Undefined \/ r = Items [] ->
     getSalaryInfo cfg up toISOString cn jt w
     = (Throw (Error ("No company found matching '" +:+ cn +:+ "'")), w2)) /\
  (forall c cs w2 r w3,
     fetchGlassdoorCompanies cfg up (formatName cn) w1 = (Return (Items (c :: cs)), w2) ->
     fetchJobTitles cfg up (formatName jt) w2 = (Return r, w3) ->
     r = Undefined \/ r = Items [] ->
     getSalaryInfo cfg up toISOString cn jt w
     = (Throw (Error ("No job titles found matching '" +:+ jt +:+ "'")), w3)) /\
  (forall c cs w2 j js w3 w4,
     fetchGlassdoorCompanies cfg up (formatName cn) w1 = (Return (Items (c :: cs)), w2) ->
     fetchJobTitles cfg up (formatName jt) w2 = (Return (Items (j :: js)), w3) ->
     fetchSalaries cfg up (id c) (id j) (label j) w3 = (Return [], w4) ->
     exists r,
       getSalaryInfo cfg up toISOString cn jt w
       = (Return (Composed r),
          mkWorld (<[generateCacheKey cn jt :=
                       mkEntry (Composed r) (clock w4 + fifteen_days * 1000)]> (cache w4))
                  (clock w4) (calls w4)) /\
       fifteen_days = 15 * 24 * 60 * 60 /\
       company_name r = name c /\ company_rating r = overallRating c /\
       job_title r = label j /\ job_salaryCount r = 0 /\
       salary_currency r = None /\
       salary_low r = "N/A" /\ salary_median r = "N/A" /\ salary_high r = "N/A" /\
       salary_range r = "N/A - N/A").
Proof.
  intros Hget Hv.
  rewrite (getSalaryInfo_miss cfg up toISOString _ _ _ _ _ Hget Hv).
  split; [|split].
  - intros r w2 Hc Hr. unfold bind at 1. rewrite Hc.
    destruct Hr as [-> | ->]; reflexivity.
  - intros c cs w2 r w3 Hc Hj Hr. unfold bind at 1. rewrite Hc.
    unfold bind at 1. rewrite Hj.
    destruct Hr as [-> | ->]; reflexivity.
  - intros c cs w2 j js w3 w4 Hc Hj Hs. unfold bind at 1. rewrite Hc.
    unfold bind at 1. rewrite Hj. unfold bind at 1. rewrite Hs.
    eexists. split; [reflexivity|]. repeat split.
Qed.

Lemma getSalaryInfo_empty_results_witness :
  thrown_by (fst (getSalaryInfo stub_config
                    (stub_upstream [] [engineer] (salary_body [usd_record]) (fun _ => 0))
                    stub_toISOString "Acme" "Engineer" (empty_world 0)))
  = Some (Error "No company found matching 'Acme'").
Proof.
  destruct (getSalaryInfo_empty_results stub_config
              (stub_upstream [] [engineer] (salary_body [usd_record]) (fun _ => 0))
              stub_toISOString "Acme" "Engineer" (empty_world 0) (empty_world 0) None
              eq_refl eq_refl) as (H & _).
  rewrite (H (Items [])
             (mkWorld ∅ 0 [CompanySearch "Acme"]) eq_refl (or_intror eq_refl)).
  reflexivity.
Defined.




Lemma company_key_not_job_key (a b : string) :
  generateCompanyCacheKey a <> generateJobCacheKey b.
Proof. unfold generateCompanyCacheKey, generateJobCacheKey. simpl. discriminate. Qed.

Lemma getSalaryInfo_hit_value (cfg : Config) (up : Upstream)
    (toISOString : Z -> string) (cn jt : string) (w : World) (x : Any) (expires : Z) :
  cache w !! generateCacheKey cn jt = Some (mkEntry x expires) ->
  clock w <= expires ->
  truthy_value (Some x) = true ->
  getSalaryInfo cfg up toISOString cn jt w = (Return x, w).
Proof.
  intros Hk Hle Ht.
  exact (getSalaryInfo_hit cfg up toISOString cn jt w (mkEntry x expires) Hk Hle Ht).
Qed.

(** C1 (as stated, refuted): for the stubbed upstreams the composed median is
    ["$1 lakh"], not ["$100 k"]: 100000 reaches the lakh threshold of
    [formatSalary]. *)
Lemma end_to_end_median_is_one_lakh :
  salary_median <$> composed_of
    (fst (getSalaryInfo stub_config (acme_upstream (fun _ => 0)) stub_toISOString
            "Acme" "Engineer" (empty_world 0)))
  = Some "$1 lakh" /\
  salary_median <$> composed_of
    (fst (getSalaryInfo stub_config (acme_upstream (fun _ => 0)) stub_toISOString
            "Acme" "Engineer" (empty_world 0)))
  <> Some "$100 k".
Proof. split; vm_compute; congruence. Qed.

(** C1 (amended): against the stubbed upstreams (one employer
    [{id:1, name:"Acme", overallRating:4.2}], one job title
    [{id:9, label:"Engineer"}], one salary record with P25/P50/P75 of
    80000/100000/120000 in USD), with both URLs configured and an empty
    cache, [getSalaryInfo] issues the three upstream calls and returns a
    composed result whose [salary.median] is ["$1 lakh"] (low ["$80 k"], high
    ["$1 lakh"]); a second call with the same arguments at any time up to 15
    days after the result was stored returns the same result, leaves the
    world as it is and so issues no further upstream call. *)
Theorem end_to_end_acme (cfg : Config) (lat : Request -> Z)
    (toISOString : Z -> string) (cn jt : string) (t0 : Z) :
  configured (baseUrl cfg) = true ->
  configured (graphUrl cfg) = true ->
  exists r w1,
    getSalaryInfo cfg (acme_upstream lat) toISOString cn jt (empty_world t0)
    = (Return (Composed r), w1) /\
    company_name r = Some "Acme" /\
    company_rating r = Some (Qmake 42 10) /\
    job_title r = Some "Engineer" /\
    job_salaryCount r = 0 /\
    salary_currency r = Some "USD" /\
    salary_low r = "$80 k" /\
    salary_median r = "$1 lakh" /\
    salary_high r = "$1 lakh" /\
    salary_range r = "$80 k - $1 lakh" /\
    calls w1 = [CompanySearch (formatName cn);
                JobTitleAutocomplete (formatName jt);
                EiSalariesGraphQuery (Some 1) (Some 9) (Some "Engineer")] /\
    forall t,
      t <= clock w1 + 15 * 24 * 60 * 60 * 1000 ->
      getSalaryInfo cfg (acme_upstream lat) toISOString cn jt (at_time t w1)
      = (Return (Composed r), at_time t w1) /\
      calls (at_time t w1) = calls w1.
Proof.
  intros Hbase Hgraph.
  assert (Hrun :
    getSalaryInfo cfg (acme_upstream lat) toISOString cn jt (empty_world t0)
    = let t1 := t0 + lat (CompanySearch (formatName cn)) in
      let t2 := t1 + lat (JobTitleAutocomplete (formatName jt)) in
      let t3 := t2 + lat (EiSalariesGraphQuery (Some 1) (Some 9) (Some "Engineer")) in
      let r := compose toISOString acme engineer usd_record t3 in
      (Return (Composed r),
       mkWorld
         (<[generateCacheKey cn jt := mkEntry (Composed r) (t3 + fifteen_days * 1000)]>
            (<[generateJobCacheKey (formatName jt) :=
                 mkEntry (Items [engineer]) (t2 + thirty_days * 1000)]>
               (<[generateCompanyCacheKey (formatName cn) :=
                    mkEntry (Items [acme]) (t1 + thirty_days * 1000)]> ∅)))
         t3
         [CompanySearch (formatName cn);
          JobTitleAutocomplete (formatName jt);
          EiSalariesGraphQuery (Some 1) (Some 9) (Some "Engineer")])).
  { rewrite (getSalaryInfo_miss cfg _ toISOString cn jt _ _ None
               (cache_get_absent _ _ (lookup_empty _)) eq_refl).
    unfold bind at 1. unfold fetchGlassdoorCompanies at 1. unfold bind at 1.
    rewrite (cache_get_absent _ (empty_world t0)) by apply lookup_empty.
    cbn [truthy_value]. rewrite Hbase. cbn.
    unfold fetchJobTitles at 1. unfold bind at 1 2.
    rewrite cache_get_absent
      by (cbn [cache]; unfold setCacheValue;
          rewrite lookup_insert_ne by apply company_key_not_job_key;
          apply lookup_empty).
    cbn [truthy_value]. rewrite Hgraph. cbn.
    unfold fetchSalaries, bind. rewrite Hgraph. cbn. reflexivity. }
  rewrite Hrun. cbv zeta.
  eexists _, _. split; [reflexivity|].
  do 10 (split; [reflexivity|]).
  intros t Ht. split; [|reflexivity].
  eapply getSalaryInfo_hit_value.
  - cbn [at_time cache]. apply lookup_insert_eq.
  - cbn [at_time clock] in *. unfold fifteen_days. lia.
  - reflexivity.
Qed.

Lemma end_to_end_acme_witness :
  salary_median <$> composed_of
    (fst (getSalaryInfo stub_config (acme_upstream (fun _ => 40)) stub_toISOString
            "Acme, Inc." "Engineer" (empty_world 1000)))
  = Some "$1 lakh".
Proof.
  destruct (end_to_end_acme stub_config (fun _ => 40) stub_toISOString
              "Acme, Inc." "Engineer" 1000 eq_refl eq_refl)
    as (r & w1 & Hrun & _ & _ & _ & _ & _ & _ & Hmed & _).
  rewrite Hrun. simpl. rewrite Hmed. reflexivity.
Defined.

(** * Further properties of the cache store *)

Import Measures.

(** X1: the TTL law for any TTL.  A read after [setCacheValue(k, v, ttl)]
    returns [v] up to and including [ttl * 1000] ms after the write and
    [null] afterwards, when it also removes the entry and whatever was
    stored under [k] before.  So a zero TTL is still readable within the
    millisecond of the write, and a negative TTL is never readable at or
    after the time of the write. *)
Theorem setCacheValue_ttl_law {T : Type} (c : gmap string (CacheEntry T))
    (k : string) (v : T) (now ttl t : Z) :
  getCacheValue t k (setCacheValue now k v ttl c)
  = (if t >? now + ttl * 1000
     then (None, delete k c)
     else (Some v, setCacheValue now k v ttl c)) /\
  getCacheValue now k (setCacheValue now k v 0 c) = (Some v, setCacheValue now k v 0 c) /\
  (ttl < 0 -> now <= t ->
   getCacheValue t k (setCacheValue now k v ttl c) = (None, delete k c)).
Proof.
  assert (Hgen : forall ttl' t',
    getCacheValue t' k (setCacheValue now k v ttl' c)
    = (if t' >? now + ttl' * 1000
       then (None, delete k c)
       else (Some v, setCacheValue now k v ttl' c))).
  { intros ttl' t'. unfold getCacheValue, setCacheValue.
    rewrite lookup_insert_eq. simpl.
    destruct (t' >? now + ttl' * 1000); [|reflexivity].
    now rewrite delete_insert_eq. }
  split; [apply Hgen|]. split.
  - rewrite Hgen. destruct (now >? now + 0 * 1000) eqn:G; [lia | reflexivity].
  - intros Hneg Hle. rewrite Hgen.
    destruct (t >? now + ttl * 1000) eqn:G; [reflexivity | lia].
Qed.

Lemma setCacheValue_ttl_law_witness :
  getCacheValue 10 "k" (setCacheValue 10 "k" 7 (-1) (∅ : gmap string (CacheEntry Z)))
  = (None, delete "k" ∅).
Proof.
  apply (setCacheValue_ttl_law ∅ "k" 7 10 (-1) 10); lia.
Defined.

(** X2: writes are last-writer-wins and local to their key.  A second write
    to a key replaces the first entirely (value and expiry); writes to
    different keys commute; and a write to [k] does not change what a read of
    another key [j] returns, nor does that read undo the write. *)
Theorem setCacheValue_overwrite_and_frame {T : Type} (c : gmap string (CacheEntry T))
    (j k : string) (v1 v2 : T) (now1 now2 ttl1 ttl2 t : Z) :
  j <> k ->
  setCacheValue now2 k v2 ttl2 (setCacheValue now1 k v1 ttl1 c)
  = setCacheValue now2 k v2 ttl2 c /\
  setCacheValue now2 j v2 ttl2 (setCacheValue now1 k v1 ttl1 c)
  = setCacheValue now1 k v1 ttl1 (setCacheValue now2 j v2 ttl2 c) /\
  getCacheValue t j (setCacheValue now1 k v1 ttl1 c)
  = (fst (getCacheValue t j c), setCacheValue now1 k v1 ttl1 (snd (getCacheValue t j c))).
Proof.
  intros Hne. unfold setCacheValue. split; [apply insert_insert_eq|].
  split; [now apply insert_insert_ne|].
  unfold getCacheValue. rewrite lookup_insert_ne by congruence.
  destruct (c !! j) as [e|]; [|reflexivity].
  destruct (t >? expiresAt e); [|reflexivity].
  simpl. now rewrite delete_insert_ne by congruence.
Qed.

Lemma setCacheValue_overwrite_and_frame_witness :
  setCacheValue 5 "k" 2 60 (setCacheValue 0 "k" 1 10 (∅ : gmap string (CacheEntry Z)))
  = setCacheValue 5 "k" 2 60 ∅.
Proof.
  apply (setCacheValue_overwrite_and_frame ∅ "j" "k" 1 2 0 5 10 60 0). discriminate.
Defined.

Lemma getCacheValue_absent {T : Type} (c : gmap string (CacheEntry T)) (k : string)
    (now : Z) :
  c !! k = None -> getCacheValue now k c = (None, c).
Proof. intros Hk. unfold getCacheValue. now rewrite Hk. Qed.

(** X3: reads never resurrect or add anything.  Once a read of [k] has
    returned [null], every later read of [k] on the resulting store returns
    [null], at any time, and changes nothing; a read that returns a value
    would have returned the same value at any earlier time; a read changes no
    key but the one it reads, and the store never grows by it. *)
Theorem getCacheValue_expiry_is_final {T : Type} (c : gmap string (CacheEntry T))
    (k : string) (t : Z) :
  (fst (getCacheValue t k c) = None ->
   forall t', getCacheValue t' k (snd (getCacheValue t k c))
              = (None, snd (getCacheValue t k c))) /\
  (forall v, fst (getCacheValue t k c) = Some v ->
   forall t', t' <= t -> getCacheValue t' k c = (Some v, c)) /\
  (forall j, j <> k -> snd (getCacheValue t k c) !! j = c !! j) /\
  (size (snd (getCacheValue t k c)) <= size c)%nat.
Proof.
  destruct (c !! k) as [e|] eqn:E.
  - destruct (Z_le_gt_dec t (expiresAt e)) as [Hle|Hgt].
    + rewrite (getCacheValue_live c k e t E Hle). simpl.
      split; [discriminate|].
      split; [|split; [reflexivity | lia]].
      intros v [= <-] t' Ht'. apply getCacheValue_live; [exact E | lia].
    + rewrite (getCacheValue_expired c k e t E ltac:(lia)). simpl.
      split; [intros _ t'; apply getCacheValue_absent, lookup_delete_eq|].
      split; [discriminate|].
      split; [intros j Hj; now apply lookup_delete_ne|].
      rewrite map_size_delete_Some by (now exists e). lia.
  - rewrite (getCacheValue_absent c k t E). simpl.
    split; [intros _ t'; now apply getCacheValue_absent|].
    split; [discriminate|]. split; [reflexivity | lia].
Qed.

Lemma getCacheValue_expiry_is_final_witness :
  getCacheValue 0 "job:x" (snd (getCacheValue 1 "job:x" collision_cache))
  = (None, snd (getCacheValue 1 "job:x" collision_cache)).
Proof.
  destruct (getCacheValue_expiry_is_final collision_cache "job:x" 1) as (H & _).
  apply H. reflexivity.
Defined.

Lemma clearCache_lookup_cleared {T : Type} (c : gmap string (CacheEntry T))
    (p : option string) (k : string) :
  clearCache p c !! k = if cleared p k then None else c !! k.
Proof.
  destruct p as [p|]; [|apply lookup_empty].
  unfold cleared. destruct (truthy p) eqn:Hp.
  - now apply clearCache_lookup.
  - unfold clearCache. rewrite Hp. apply lookup_empty.
Qed.

Lemma startsWith_append (p s : string) : startsWith (p +:+ s) p = true.
Proof.
  induction p as [|c p IH]; simpl; [now destruct s|].
  now rewrite Ascii.eqb_refl, IH.
Qed.

(** X4: clearing by a namespace tag touches that namespace only.
    [clearCache("company:")] (and [clearCache("company")]) removes every key
    made by [generateCompanyCacheKey] and leaves every key made by
    [generateJobCacheKey] and [generateCacheKey] as it is; likewise for
    ["job:"] and ["salary:"]. *)
Theorem clearCache_namespace_isolation {T : Type} (c : gmap string (CacheEntry T))
    (a b : string) :
  (clearCache (Some "company:") c !! generateCompanyCacheKey a = None /\
   clearCache (Some "company:") c !! generateJobCacheKey a = c !! generateJobCacheKey a /\
   clearCache (Some "company:") c !! generateCacheKey a b = c !! generateCacheKey a b) /\
  (clearCache (Some "job:") c !! generateJobCacheKey a = None /\
   clearCache (Some "job:") c !! generateCompanyCacheKey a = c !! generateCompanyCacheKey a /\
   clearCache (Some "job:") c !! generateCacheKey a b = c !! generateCacheKey a b) /\
  (clearCache (Some "salary:") c !! generateCacheKey a b = None /\
   clearCache (Some "salary:") c !! generateCompanyCacheKey a = c !! generateCompanyCacheKey a /\
   clearCache (Some "salary:") c !! generateJobCacheKey a = c !! generateJobCacheKey a) /\
  (clearCache (Some "company") c !! generateCompanyCacheKey a = None /\
   clearCache (Some "company") c !! generateJobCacheKey a = c !! generateJobCacheKey a /\
   clearCache (Some "company") c !! generateCacheKey a b = c !! generateCacheKey a b).
Proof.
  pose proof (startsWith_append "company:" (normalize a)) as Hc.
  pose proof (startsWith_append "job:" (normalize a)) as Hj.
  pose proof (startsWith_append "salary:" (normalize a +:+ ":" +:+ normalize b)) as Hs.
  pose proof (startsWith_append "company" (":" +:+ normalize a)) as Hc'.
  repeat split; rewrite clearCache_lookup by reflexivity;
    first [reflexivity
          | unfold generateCompanyCacheKey; cbv zeta; fold (normalize a);
            first [rewrite Hc | rewrite Hc']; reflexivity
          | unfold generateJobCacheKey; cbv zeta; fold (normalize a);
            rewrite Hj; reflexivity
          | unfold generateCacheKey; cbv zeta; fold (normalize a); fold (normalize b);
            rewrite Hs; reflexivity].
Qed.

(** X5: [clearCache] only removes: an entry of the cleared store is an entry
    of the original one, unchanged.  Clearing twice with the same prefix is
    clearing once, and two clears can be done in either order. *)
Theorem clearCache_algebra {T : Type} (c : gmap string (CacheEntry T))
    (p q : option string) :
  (forall k e, clearCache p c !! k = Some e -> c !! k = Some e) /\
  clearCache p (clearCache p c) = clearCache p c /\
  clearCache p (clearCache q c) = clearCache q (clearCache p c) /\
  (size (clearCache p c) <= size c)%nat.
Proof.
  split; [|split; [|split]].
  - intros k e. rewrite clearCache_lookup_cleared.
    now destruct (cleared p k).
  - apply map_eq. intros k. rewrite !clearCache_lookup_cleared.
    now destruct (cleared p k).
  - apply map_eq. intros k. rewrite !clearCache_lookup_cleared.
    now destruct (cleared p k), (cleared q k).
  - apply map_subseteq_size, map_subseteq_spec. intros k e.
    rewrite clearCache_lookup_cleared. now destruct (cleared p k).
Qed.

Lemma clearCache_algebra_witness :
  collision_cache !! "job:x" = Some (mkEntry 2 0).
Proof.
  destruct (clearCache_algebra collision_cache (Some "company") None) as (H & _).
  apply H. reflexivity.
Defined.

(** ** Statistics *)

Lemma bucket_total_insert_fresh (m : gmap string Z) (p : string) (n : Z) :
  m !! p = None -> bucket_total (<[p := n]> m) = n + bucket_total m.
Proof.
  intros Hp. unfold bucket_total.
  rewrite map_fold_insert_L; [reflexivity | intros; lia | exact Hp].
Qed.

Lemma bucket_total_insert (m : gmap string Z) (p : string) (n : Z) :
  bucket_total (<[p := n]> m) = n + bucket_total m - default 0 (m !! p).
Proof.
  destruct (m !! p) as [old|] eqn:E; simpl.
  - rewrite <- (insert_delete_eq m).
    rewrite bucket_total_insert_fresh by apply lookup_delete_eq.
    rewrite <- (insert_delete_id m p old E) at 2.
    rewrite bucket_total_insert_fresh by apply lookup_delete_eq. lia.
  - rewrite bucket_total_insert_fresh by exact E. lia.
Qed.

Lemma byPrefix_bucket_absent {T : Type} (len : T -> Z)
    (c : gmap string (CacheEntry T)) (p : string) :
  byPrefix (getCacheStats len c) !! p = None <->
  forall k e, c !! k = Some e -> prefix_segment k <> p.
Proof.
  induction c as [|k e c Hk IH] using map_ind.
  - rewrite getCacheStats_empty. simpl. rewrite lookup_empty.
    split; [intros _ k e; now rewrite lookup_empty | reflexivity].
  - rewrite getCacheStats_insert by exact Hk. simpl.
    destruct (decide (prefix_segment k = p)) as [Heq|Hne].
    + rewrite Heq, lookup_insert_eq. split; [discriminate|].
      intros H. exfalso. apply (H k e); [apply lookup_insert_eq | exact Heq].
    + rewrite lookup_insert_ne by exact Hne. rewrite IH. split.
      * intros H j x. destruct (decide (k = j)) as [<-|Hkj].
        -- intros _. exact Hne.
        -- rewrite lookup_insert_ne by exact Hkj. apply H.
      * intros H j x Hj. apply (H j x).
        rewrite lookup_insert_ne; [exact Hj | congruence].
Qed.

Lemma byPrefix_total {T : Type} (len : T -> Z) (c : gmap string (CacheEntry T)) :
  bucket_total (byPrefix (getCacheStats len c)) = totalEntries (getCacheStats len c).
Proof.
  induction c as [|k e c Hk IH] using map_ind.
  - rewrite getCacheStats_empty. reflexivity.
  - rewrite getCacheStats_insert by exact Hk. simpl.
    rewrite bucket_total_insert, IH. lia.
Qed.

(** X6: for a store of serializable values whose keys and prefix segments
    are not names of [Object.prototype] members, [getCacheStats()] returns,
    and each [byPrefix] bucket holds the number of stored keys whose segment
    before the first [":"] is that prefix (expired ones included); a prefix
    has a bucket exactly when some stored key has it. *)
Theorem byPrefix_counts_keys {T : Type} (stringify : T -> option Z)
    (c : gmap string (CacheEntry T)) (p : string) :
  serializable stringify c ->
  plain_store c ->
  plain_name p = true ->
  exists stats,
    getCacheStats_js stringify c = Some stats /\
    default 0 (byPrefix stats !! p)
    = Z.of_nat (size (filter (fun kv => prefix_segment (fst kv) = p) c)) /\
    (byPrefix stats !! p = None <->
     forall k e, c !! k = Some e -> prefix_segment k <> p).
Proof.
  intros Hser _ _.
  exists (getCacheStats (fun v => default 0 (stringify v)) c).
  split; [now apply getCacheStats_js_Some|].
  split; [apply byPrefix_bucket_size | apply byPrefix_bucket_absent].
Qed.

Lemma byPrefix_counts_keys_witness :
  exists stats,
    getCacheStats_js (fun v : Z => Some v) collision_cache = Some stats /\
    default 0 (byPrefix stats !! "company") = 1.
Proof.
  destruct (byPrefix_counts_keys (fun v : Z => Some v) collision_cache "company")
    as (stats & Hst & Hcount & _).
  - apply map_Forall_lookup. intros i x _. now eexists.
  - apply (bool_decide_unpack _). vm_compute. exact I.
  - reflexivity.
  - exists stats. split; [exact Hst|].
    rewrite Hcount. vm_compute. reflexivity.
Defined.

(** X7: for such a store the [byPrefix] counts add up to [totalEntries], and
    every count is at least 1. *)
Theorem byPrefix_adds_up {T : Type} (stringify : T -> option Z)
    (c : gmap string (CacheEntry T)) :
  serializable stringify c ->
  plain_store c ->
  exists stats,
    getCacheStats_js stringify c = Some stats /\
    bucket_total (byPrefix stats) = totalEntries stats /\
    totalEntries stats = Z.of_nat (size c) /\
    (forall p n, byPrefix stats !! p = Some n -> 1 <= n).
Proof.
  intros Hser _.
  exists (getCacheStats (fun v => default 0 (stringify v)) c).
  split; [now apply getCacheStats_js_Some|].
  split; [apply byPrefix_total|].
  split; [apply totalEntries_size|].
  intros p n. apply byPrefix_nonneg.
Qed.

Lemma byPrefix_adds_up_witness :
  exists stats,
    getCacheStats_js (fun _ : Z => Some 1) collision_cache = Some stats /\
    bucket_total (byPrefix stats) = 3.
Proof.
  destruct (byPrefix_adds_up (fun _ : Z => Some 1) collision_cache)
    as (stats & Hst & Hsum & Hsize & _).
  - apply map_Forall_lookup. intros i x _. now eexists.
  - apply (bool_decide_unpack _). vm_compute. exact I.
  - exists stats. split; [exact Hst|].
    rewrite Hsum, Hsize. vm_compute. reflexivity.
Defined.

(** X8: how a write moves the statistics, for a key that is not the name of
    an [Object.prototype] member, a serializable value and such a store.
    Writing a fresh key adds one entry, one to the key's bucket and twice the
    serialized length of the value; overwriting a key keeps the entry count
    and the buckets and replaces the old value's share of the estimate by the
    new one's. *)
Theorem stats_after_write {T : Type} (stringify : T -> option Z)
    (c : gmap string (CacheEntry T)) (k : string) (v : T) (now ttl : Z) :
  plain_name k = true ->
  plain_name (prefix_segment k) = true ->
  is_Some (stringify v) ->
  serializable stringify c ->
  plain_store c ->
  exists before after,
    getCacheStats_js stringify c = Some before /\
    getCacheStats_js stringify (setCacheValue now k v ttl c) = Some after /\
    (c !! k = None ->
     totalEntries after = totalEntries before + 1 /\
     default 0 (byPrefix after !! prefix_segment k)
     = default 0 (byPrefix before !! prefix_segment k) + 1 /\
     (forall p, p <> prefix_segment k -> byPrefix after !! p = byPrefix before !! p) /\
     memoryUsageEstimate after
     = memoryUsageEstimate before + default 0 (stringify v) * 2) /\
    (forall old, c !! k = Some old ->
     totalEntries after = totalEntries before /\
     memoryUsageEstimate after
     = memoryUsageEstimate before + default 0 (stringify v) * 2
       - default 0 (stringify (value old)) * 2 /\
     byPrefix after = byPrefix before).
Proof.
  intros _ _ Hv Hser _.
  set (len := fun x => default 0 (stringify x)).
  exists (getCacheStats len c), (getCacheStats len (setCacheValue now k v ttl c)).
  split; [now apply getCacheStats_js_Some|].
  split; [now apply getCacheStats_js_Some, serializable_set|].
  unfold setCacheValue. split.
  - intros Hk. rewrite getCacheStats_insert by exact Hk. simpl.
    rewrite lookup_insert_eq. simpl.
    split; [reflexivity|]. split; [reflexivity|]. split; [|reflexivity].
    intros p Hp. now rewrite lookup_insert_ne.
  - intros old Hk.
    rewrite <- (insert_delete_eq c).
    rewrite getCacheStats_insert by apply lookup_delete_eq.
    rewrite (getCacheStats_delete len c k old Hk). simpl.
    split; [reflexivity|]. split; [unfold len; lia | reflexivity].
Qed.

Lemma stats_after_write_witness :
  exists before after,
    getCacheStats_js (fun v : Z => Some v) collision_cache = Some before /\
    getCacheStats_js (fun v : Z => Some v) (setCacheValue 0 "job:x" 5 60 collision_cache)
    = Some after /\
    memoryUsageEstimate after = memoryUsageEstimate before + 6.
Proof.
  destruct (stats_after_write (fun v : Z => Some v) collision_cache "job:x" 5 0 60)
    as (before & after & Hb & Ha & _ & Ho).
  - reflexivity.
  - reflexivity.
  - now eexists.
  - apply map_Forall_lookup. intros i x _. now eexists.
  - apply (bool_decide_unpack _). vm_compute. exact I.
  - exists before, after. split; [exact Hb|]. split; [exact Ha|].
    destruct (Ho (mkEntry 2 0) eq_refl) as (_ & H & _). rewrite H. simpl. lia.
Defined.

(** ** Cache keys *)

Lemma append_inj_l (p a b : string) : p +:+ a = p +:+ b -> a = b.
Proof. induction p as [|c p IH]; simpl; [trivial|]. intros [= H]. auto. Qed.

Lemma append_colon_inj (s s' t t' : string) :
  all_chars (fun c => negb (is_colon c)) s = true ->
  all_chars (fun c => negb (is_colon c)) s' = true ->
  s +:+ ":" +:+ t = s' +:+ ":" +:+ t' ->
  s = s' /\ t = t'.
Proof.
  revert s'. induction s as [|c s IH]; intros [|c' s'] Hs Hs' H;
    cbn in Hs, Hs', H.
  - injection H as H. now split.
  - injection H as H1 H2. subst c'. discriminate.
  - injection H as H1 H2. subst c. discriminate.
  - injection H as H1 H2. subst c'.
    apply andb_true_iff in Hs as [_ Hs]. apply andb_true_iff in Hs' as [_ Hs'].
    destruct (IH s' Hs Hs' H2) as [-> ->]. now split.
Qed.

(** X9: keys identify their inputs up to normalization, whatever the
    runtime's [trim] and [toLowerCase] do.  Company keys (and job keys) are
    equal exactly when the normalized names are; combined keys of company
    names whose normalized form holds no [":"] are equal exactly when both
    normalized parts are; a key of one generator is never a key of another;
    and the segment before the first [":"] of a generated key is its
    namespace tag. *)
Theorem cache_keys_identify_inputs (ops : StringOps) (a b a' b' : string) :
  (generateCompanyCacheKeyWith ops a = generateCompanyCacheKeyWith ops a'
   <-> normalizeWith ops a = normalizeWith ops a') /\
  (generateJobCacheKeyWith ops b = generateJobCacheKeyWith ops b'
   <-> normalizeWith ops b = normalizeWith ops b') /\
  (all_chars (fun c => negb (is_colon c)) (normalizeWith ops a) = true ->
   all_chars (fun c => negb (is_colon c)) (normalizeWith ops a') = true ->
   (generateCacheKeyWith ops a b = generateCacheKeyWith ops a' b'
    <-> normalizeWith ops a = normalizeWith ops a' /\
        normalizeWith ops b = normalizeWith ops b')) /\
  generateCompanyCacheKeyWith ops a <> generateJobCacheKeyWith ops b /\
  generateCacheKeyWith ops a b <> generateCompanyCacheKeyWith ops a' /\
  generateCacheKeyWith ops a b <> generateJobCacheKeyWith ops b' /\
  prefix_segment (generateCompanyCacheKeyWith ops a) = "company" /\
  prefix_segment (generateJobCacheKeyWith ops b) = "job" /\
  prefix_segment (generateCacheKeyWith ops a b) = "salary".
Proof.
  unfold generateCacheKeyWith, generateCompanyCacheKeyWith, generateJobCacheKeyWith.
  cbv zeta.
  fold (normalizeWith ops a). fold (normalizeWith ops a').
  fold (normalizeWith ops b). fold (normalizeWith ops b').
  split; [|split; [|split]].
  - split.
    + intros H. exact (append_inj_l "company:" _ _ H).
    + intros H. now rewrite H.
  - split.
    + intros H. exact (append_inj_l "job:" _ _ H).
    + intros H. now rewrite H.
  - intros Ha Ha'. split.
    + intros H. apply (append_inj_l "salary:") in H.
      exact (append_colon_inj _ _ _ _ Ha Ha' H).
    + intros [-> ->]. reflexivity.
  - repeat split; try reflexivity; simpl; discriminate.
Qed.

Lemma cache_keys_identify_inputs_witness :
  generateCacheKeyWith ascii_ops " Acme" "Dev" = generateCacheKeyWith ascii_ops "ACME " "dev"
  <-> normalizeWith ascii_ops " Acme" = normalizeWith ascii_ops "ACME " /\
      normalizeWith ascii_ops "Dev" = normalizeWith ascii_ops "dev".
Proof.
  destruct (cache_keys_identify_inputs ascii_ops " Acme" "Dev" "ACME " "dev")
    as (_ & _ & H & _).
  apply H; reflexivity.
Defined.

(** * Further properties of the formatting helpers *)

Lemma all_chars_keep_chars (p : ascii -> bool) (s : string) :
  all_chars p (keep_chars p s) = true.
Proof.
  induction s as [|c s IH]; simpl; [reflexivity|].
  destruct (p c) eqn:E; simpl; [now rewrite E|exact IH].
Qed.

Lemma all_chars_impl (p q : ascii -> bool) (s : string) :
  (forall c, p c = true -> q c = true) ->
  all_chars p s = true -> all_chars q s = true.
Proof.
  intros Hpq. induction s as [|c s IH]; simpl; [trivial|].
  intros [Hc Hs]%andb_true_iff. now rewrite (Hpq c Hc), IH.
Qed.

Lemma all_chars_trimStart (p : ascii -> bool) (s : string) :
  all_chars p s = true -> all_chars p (trimStart s) = true.
Proof.
  induction s as [|c s IH]; simpl; [trivial|].
  intros H. destruct (is_white_space c); [|exact H].
  apply andb_true_iff in H as [_ H]. now apply IH.
Qed.

Lemma all_chars_trimEnd (p : ascii -> bool) (s : string) :
  all_chars p s = true -> all_chars p (trimEnd s) = true.
Proof.
  induction s as [|c s IH]; simpl; [trivial|].
  intros [Hc Hs]%andb_true_iff. specialize (IH Hs).
  destruct (trimEnd s) as [|d r].
  - destruct (is_white_space c); simpl; [reflexivity | now rewrite Hc].
  - change (all_chars p (String c (String d r))) with
      (p c && all_chars p (String d r))%bool. now rewrite Hc, IH.
Qed.

Lemma all_chars_toLowerCase (p : ascii -> bool) (s : string) :
  (forall c, p (lower_char c) = p c) ->
  all_chars p (toLowerCase s) = all_chars p s.
Proof.
  intros Hp. induction s as [|c s IH]; simpl; [reflexivity|]. now rewrite Hp, IH.
Qed.

Lemma sanitized_char_is_plain (c : ascii) :
  (is_word c || is_white_space c)%bool = true ->
  negb (is_colon c) = true /\ negb (is_name_separator c) = true.
Proof. destruct c as [[] [] [] [] [] [] [] []]; cbn; intros H; now split. Qed.

Lemma length_keep_chars (p : ascii -> bool) (s : string) :
  (String.length (keep_chars p s) <= String.length s)%nat.
Proof.
  induction s as [|c s IH]; simpl; [lia|]. destruct (p c); simpl; lia.
Qed.

Lemma length_trimStart (s : string) :
  (String.length (trimStart s) <= String.length s)%nat.
Proof.
  induction s as [|c s IH]; simpl; [lia|].
  destruct (is_white_space c); simpl; lia.
Qed.

Lemma length_trimEnd (s : string) :
  (String.length (trimEnd s) <= String.length s)%nat.
Proof.
  induction s as [|c s IH]; simpl; [lia|].
  destruct (trimEnd s) as [|d r].
  - destruct (is_white_space c); simpl in *; lia.
  - simpl in *. lia.
Qed.

Lemma length_split_first (sep : ascii -> bool) (s : string) :
  (String.length (split_first sep s) <= String.length s)%nat.
Proof.
  induction s as [|c s IH]; simpl; [lia|]. destruct (sep c); simpl; lia.
Qed.

Lemma formatName_unfold (s : string) :
  formatName s
  = keep_chars (fun c => (is_word c || is_white_space c)%bool)
      (trim (split_first is_name_separator s)).
Proof. destruct s; reflexivity. Qed.

(** X10: for an ASCII input the sanitized name holds only word characters
    ([A-Za-z0-9_]) and white space; in particular it holds no [":"], no [","]
    and no ["("], also after the trim and lower-casing of the key generators,
    so a key built from it has the delimiter only after its tag; and it is
    never longer than the input. *)
Theorem formatName_output_alphabet (s : string) :
  ascii_string s = true ->
  all_chars (fun c => (is_word c || is_white_space c)%bool) (formatName s) = true /\
  all_chars (fun c => negb (is_colon c)) (formatName s) = true /\
  all_chars (fun c => negb (is_name_separator c)) (formatName s) = true /\
  all_chars (fun c => negb (is_colon c)) (normalize (formatName s)) = true /\
  (String.length (formatName s) <= String.length s)%nat.
Proof.
  intros _.
  assert (H : all_chars (fun c => (is_word c || is_white_space c)%bool) (formatName s) = true)
    by (rewrite formatName_unfold; apply all_chars_keep_chars).
  assert (Hc : all_chars (fun c => negb (is_colon c)) (formatName s) = true).
  { revert H. apply all_chars_impl. intros c Hc. now apply sanitized_char_is_plain. }
  split; [exact H|]. split; [exact Hc|]. split; [|split].
  - revert H. apply all_chars_impl. intros c Hw. now apply sanitized_char_is_plain.
  - unfold normalize. rewrite all_chars_toLowerCase.
    + unfold trim. now apply all_chars_trimEnd, all_chars_trimStart.
    + intros c. destruct c as [[] [] [] [] [] [] [] []]; reflexivity.
  - rewrite formatName_unfold. unfold trim.
    pose proof (length_keep_chars (fun c => (is_word c || is_white_space c)%bool)
                  (trimEnd (trimStart (split_first is_name_separator s)))).
    pose proof (length_trimEnd (trimStart (split_first is_name_separator s))).
    pose proof (length_trimStart (split_first is_name_separator s)).
    pose proof (length_split_first is_name_separator s). lia.
Qed.

Lemma formatName_output_alphabet_witness :
  all_chars (fun c => negb (is_colon c)) (normalize (formatName "A:B Corp. (India)")) = true.
Proof.
  destruct (formatName_output_alphabet "A:B Corp. (India)" eq_refl) as (_ & _ & _ & H & _).
  exact H.
Defined.

Lemma split_first_append (sep : ascii -> bool) (s t : string) (c : ascii) :
  all_chars (fun x => negb (sep x)) s = true ->
  sep c = true ->
  split_first sep (s +:+ String c t) = s /\ split_first sep s = s.
Proof.
  intros Hs Hc. induction s as [|d s IH]; simpl; [now rewrite Hc|].
  simpl in Hs. apply andb_true_iff in Hs as [Hd Hs].
  apply negb_true_iff in Hd. rewrite Hd.
  destruct (IH Hs) as [-> ->]. now split.
Qed.

(** X11: only the text before the first comma or opening parenthesis counts:
    for a text [s] that holds neither, [formatName] of [s] followed by such a
    separator and anything else is [formatName s]. *)
Theorem formatName_ignores_tail (s t : string) (c : ascii) :
  all_chars (fun x => negb (is_name_separator x)) s = true ->
  is_name_separator c = true ->
  formatName (s +:+ String c t) = formatName s.
Proof.
  intros Hs Hc. rewrite !formatName_unfold.
  destruct (split_first_append is_name_separator s t c Hs Hc) as [-> ->].
  reflexivity.
Qed.

Lemma formatName_ignores_tail_witness :
  formatName ("Initech" +:+ String "("%char " formerly Initrode)") = formatName "Initech".
Proof.
  apply (formatName_ignores_tail "Initech" " formerly Initrode)" "("%char); reflexivity.
Defined.

(** X12: for a whole-number amount and a currency code that is not the name
    of an [Object.prototype] member, the figure [formatSalary] prints with a
    suffix is never 0: from 1,000 up to (not including) 100,000 it is between
    1 and 100 with [" k"], from 100,000 up to 10,000,000 between 1 and 100
    with [" lakh"], from 10,000,000 (up to 4 * 10^15) at least 1 with
    [" cr"].  The upper end is reached: amounts from 99,500 print ["100 k"]
    and amounts from 9,950,000 print ["100 lakh"], one unit below the next
    suffix. *)
Theorem formatSalary_figure_bounds (amount : Z) (code : string) :
  plain_name code = true ->
  (1000 <= amount < 100000 ->
   exists n, 1 <= n <= 100 /\
     formatSalary (Some amount) (Some code)
     = spec_currency_symbol code +:+ pretty n +:+ " k") /\
  (100000 <= amount < 10000000 ->
   exists n, 1 <= n <= 100 /\
     formatSalary (Some amount) (Some code)
     = spec_currency_symbol code +:+ pretty n +:+ " lakh") /\
  (10000000 <= amount < 4 * 10 ^ 15 ->
   exists n, 1 <= n /\
     formatSalary (Some amount) (Some code)
     = spec_currency_symbol code +:+ pretty n +:+ " cr") /\
  (99500 <= amount < 100000 ->
   formatSalary (Some amount) (Some code) = spec_currency_symbol code +:+ "100 k") /\
  (9950000 <= amount < 10000000 ->
   formatSalary (Some amount) (Some code) = spec_currency_symbol code +:+ "100 lakh").
Proof.
  intros Hplain.
  assert (Hf : amount <> 0 ->
    formatSalary (Some amount) (Some code) =
    if (10000000 <=? amount)%Z then
      spec_currency_symbol code +:+ pretty (round_div amount 10000000) +:+ " cr"
    else if (100000 <=? amount)%Z then
      spec_currency_symbol code +:+ pretty (round_div amount 100000) +:+ " lakh"
    else if (1000 <=? amount)%Z then
      spec_currency_symbol code +:+ pretty (round_div amount 1000) +:+ " k"
    else spec_currency_symbol code +:+ pretty amount).
  { intros Hnz. rewrite (formatSalary_cases amount (Some code) Hnz).
    now rewrite (currencySymbol_plain code Hplain), !Z.geb_leb. }
  assert (Hk : 1000 <= amount < 100000 ->
    formatSalary (Some amount) (Some code)
    = spec_currency_symbol code +:+ pretty (round_div amount 1000) +:+ " k").
  { intros H. rewrite Hf by lia.
    destruct (Z.leb_spec 10000000 amount); [lia|].
    destruct (Z.leb_spec 100000 amount); [lia|].
    destruct (Z.leb_spec 1000 amount); [reflexivity | lia]. }
  assert (Hl : 100000 <= amount < 10000000 ->
    formatSalary (Some amount) (Some code)
    = spec_currency_symbol code +:+ pretty (round_div amount 100000) +:+ " lakh").
  { intros H. rewrite Hf by lia.
    destruct (Z.leb_spec 10000000 amount); [lia|].
    destruct (Z.leb_spec 100000 amount); [reflexivity | lia]. }
  assert (Hb : forall d, 0 < d ->
    (d <= amount -> 1 <= round_div amount d) /\
    (amount < 100 * d -> round_div amount d <= 100) /\
    (2 * amount + d >= 200 * d -> 100 <= round_div amount d)).
  { intros d Hd. unfold round_div. repeat split; intros H.
    - apply Z.div_le_lower_bound; lia.
    - apply Z.lt_succ_r, Z.div_lt_upper_bound; lia.
    - apply Z.div_le_lower_bound; lia. }
  split; [|split; [|split; [|split]]].
  - intros H. exists (round_div amount 1000).
    destruct (Hb 1000 ltac:(lia)) as (H1 & H2 & _).
    split; [split; [apply H1 | apply H2]; lia | now apply Hk].
  - intros H. exists (round_div amount 100000).
    destruct (Hb 100000 ltac:(lia)) as (H1 & H2 & _).
    split; [split; [apply H1 | apply H2]; lia | now apply Hl].
  - intros H. exists (round_div amount 10000000).
    destruct (Hb 10000000 ltac:(lia)) as (H1 & _).
    split; [apply H1; lia|]. rewrite Hf by lia.
    destruct (Z.leb_spec 10000000 amount); [reflexivity | lia].
  - intros H. rewrite Hk by lia.
    destruct (Hb 1000 ltac:(lia)) as (_ & H2 & H3).
    assert (round_div amount 1000 = 100) as -> by (specialize (H2 ltac:(lia)); specialize (H3 ltac:(lia)); lia).
    reflexivity.
  - intros H. rewrite Hl by lia.
    destruct (Hb 100000 ltac:(lia)) as (_ & H2 & H3).
    assert (round_div amount 100000 = 100) as -> by (specialize (H2 ltac:(lia)); specialize (H3 ltac:(lia)); lia).
    reflexivity.
Qed.

Lemma formatSalary_figure_bounds_witness :
  formatSalary (Some 99999) (Some "USD") = "$100 k".
Proof.
  destruct (formatSalary_figure_bounds 99999 "USD" eq_refl) as (_ & _ & _ & H & _).
  rewrite H by lia. reflexivity.
Defined.

(** * Further properties of the lookup pipeline *)

Section LookupFacts.

Variable cfg : Config.
Variable up : Upstream.

Lemma fetchGlassdoorCompanies_hit (n : string) (w : World) (e : CacheEntry Any) :
  cache w !! generateCompanyCacheKey n = Some e ->
  clock w <= expiresAt e ->
  truthy_value (Some (value e)) = true ->
  fetchGlassdoorCompanies cfg up n w = (Return (value e), w).
Proof.
  intros Hk Hle Ht. unfold fetchGlassdoorCompanies, bind.
  rewrite (cache_get_live _ _ _ Hk Hle), Ht. reflexivity.
Qed.

Lemma fetchJobTitles_hit (n : string) (w : World) (e : CacheEntry Any) :
  cache w !! generateJobCacheKey n = Some e ->
  clock w <= expiresAt e ->
  truthy_value (Some (value e)) = true ->
  fetchJobTitles cfg up n w = (Return (value e), w).
Proof.
  intros Hk Hle Ht. unfold fetchJobTitles, bind.
  rewrite (cache_get_live _ _ _ Hk Hle), Ht. reflexivity.
Qed.

Lemma fetchGlassdoorCompanies_hit_value (n : string) (w : World) (x : Any) (expires : Z) :
  cache w !! generateCompanyCacheKey n = Some (mkEntry x expires) ->
  clock w <= expires ->
  truthy_value (Some x) = true ->
  fetchGlassdoorCompanies cfg up n w = (Return x, w).
Proof.
  intros Hk Hle Ht.
  exact (fetchGlassdoorCompanies_hit n w (mkEntry x expires) Hk Hle Ht).
Qed.

Lemma fetchJobTitles_hit_value (n : string) (w : World) (x : Any) (expires : Z) :
  cache w !! generateJobCacheKey n = Some (mkEntry x expires) ->
  clock w <= expires ->
  truthy_value (Some x) = true ->
  fetchJobTitles cfg up n w = (Return x, w).
Proof.
  intros Hk Hle Ht.
  exact (fetchJobTitles_hit n w (mkEntry x expires) Hk Hle Ht).
Qed.

(** What the company lookup does after a miss. *)
Lemma fetchGlassdoorCompanies_miss (n : string) (w w1 : World) (v : option Any) :
  cache_get (generateCompanyCacheKey n) w = (Return v, w1) ->
  truthy_value v = false ->
  fetchGlassdoorCompanies cfg up n w =
  if negb (configured (baseUrl cfg)) then
    (Throw (Error "Glassdoor base URL is not configured"), w1)
  else
    let w2 := after_call up (CompanySearch n) w1 in
    match company_search up n with
    | Rejected => (Throw FetchRejected, w2)
    | Responded status body =>
        if negb (ok status) then
          (Throw (Error ("API request failed with status " +:+ pretty status)), w2)
        else
          match json body with
          | None => (Throw TypeError, w2)
          | Some j =>
              match response j with
              | None => (Throw TypeError, w2)
              | Some r =>
                  match employers r with
                  | Some (c :: cs) =>
                      (Return (Items (c :: cs)),
                       mkWorld (setCacheValue (clock w2) (generateCompanyCacheKey n)
                                  (Items (c :: cs)) thirty_days (cache w2))
                               (clock w2) (calls w2))
                  | Some [] => (Return (Items []), w2)
                  | None => (Return Undefined, w2)
                  end
              end
          end
    end.
Proof.
  intros Hget Hv. unfold fetchGlassdoorCompanies, bind. rewrite Hget, Hv.
  destruct (negb (configured (baseUrl cfg))); [reflexivity|].
  unfold fetch, after_call.
  destruct (company_search up n) as [|status body]; [reflexivity|]. simpl.
  destruct (negb (ok status)); [reflexivity|].
  destruct (json body) as [j|]; [|reflexivity]. simpl.
  destruct (response j) as [r|]; [|reflexivity]. simpl.
  destruct (employers r) as [[|c cs]|]; reflexivity.
Qed.

(** What the job-title lookup does after a miss. *)
Lemma fetchJobTitles_miss (n : string) (w w1 : World) (v : option Any) :
  cache_get (generateJobCacheKey n) w = (Return v, w1) ->
  truthy_value v = false ->
  fetchJobTitles cfg up n w =
  if negb (configured (graphUrl cfg)) then
    (Throw (Error "Glassdoor graph URL is not configured"), w1)
  else
    let w2 := after_call up (JobTitleAutocomplete n) w1 in
    match job_autocomplete up n with
    | Rejected => (Throw FetchRejected, w2)
    | Responded status body =>
        if negb (ok status) then
          (Throw (Error ("GraphQL request failed with status " +:+ pretty status)), w2)
        else
          match default [] (d ← (b ← head body; job_data b); jobTitleAutocomplete d) with
          | j :: js =>
              (Return (Items (j :: js)),
               mkWorld (setCacheValue (clock w2) (generateJobCacheKey n)
                          (Items (j :: js)) thirty_days (cache w2))
                       (clock w2) (calls w2))
          | [] => (Return (Items []), w2)
          end
    end.
Proof.
  intros Hget Hv. unfold fetchJobTitles, bind. rewrite Hget, Hv.
  destruct (negb (configured (graphUrl cfg))); [reflexivity|].
  unfold fetch, after_call.
  destruct (job_autocomplete up n) as [|status body]; [reflexivity|]. simpl.
  destruct (negb (ok status)); [reflexivity|].
  destruct (default [] _) as [|j js]; reflexivity.
Qed.

End LookupFacts.

(** X13: a live cached list is served without the network and without the
    configuration: with a non-expired, truthy entry under its key, the company
    lookup (likewise the job-title lookup) returns the stored value and
    changes nothing, whatever the upstream would answer and even when no URL
    is configured. *)
Theorem lookups_serve_live_entries (cfg : Config) (up : Upstream) (n : string)
    (w : World) (e : CacheEntry Any) :
  clock w <= expiresAt e ->
  truthy_value (Some (value e)) = true ->
  (cache w !! generateCompanyCacheKey n = Some e ->
   fetchGlassdoorCompanies cfg up n w = (Return (value e), w)) /\
  (cache w !! generateJobCacheKey n = Some e ->
   fetchJobTitles cfg up n w = (Return (value e), w)).
Proof.
  intros Hle Ht. split; intros Hk.
  - now apply fetchGlassdoorCompanies_hit.
  - now apply fetchJobTitles_hit.
Qed.

Lemma lookups_serve_live_entries_witness :
  fetchGlassdoorCompanies no_config (failing_upstream 500) "Acme" warm_world
  = (Return (Items [acme]), warm_world).
Proof.
  destruct (lookups_serve_live_entries no_config (failing_upstream 500) "Acme" warm_world
              (mkEntry (Items [acme]) (thirty_days * 1000))
              ltac:(vm_compute; discriminate) eq_refl) as (H & _).
  apply H. reflexivity.
Defined.

(** X14: a missing URL fails before any network call.  After a cache miss
    the company lookup without a base URL, and the job-title lookup without a
    graph URL, throw the configuration error and record no call; the salary
    lookup without a graph URL throws it and leaves the world as it is. *)
Theorem missing_url_fails_before_any_call (cfg : Config) (up : Upstream)
    (n : string) (a b : option Z) (t : option string) (w w1 : World) (v : option Any) :
  truthy_value v = false ->
  (configured (baseUrl cfg) = false ->
   cache_get (generateCompanyCacheKey n) w = (Return v, w1) ->
   fetchGlassdoorCompanies cfg up n w
   = (Throw (Error "Glassdoor base URL is not configured"), w1) /\ calls w1 = calls w) /\
  (configured (graphUrl cfg) = false ->
   cache_get (generateJobCacheKey n) w = (Return v, w1) ->
   fetchJobTitles cfg up n w
   = (Throw (Error "Glassdoor graph URL is not configured"), w1) /\ calls w1 = calls w) /\
  (configured (graphUrl cfg) = false ->
   fetchSalaries cfg up a b t w
   = (Throw (Error "Glassdoor graph URL is not configured"), w)).
Proof.
  intros Hv. split; [|split].
  - intros Hcfg Hget. rewrite (fetchGlassdoorCompanies_miss cfg up n w w1 v Hget Hv), Hcfg.
    split; [reflexivity|]. now apply cache_get_inv in Hget as (Hc & _).
  - intros Hcfg Hget. rewrite (fetchJobTitles_miss cfg up n w w1 v Hget Hv), Hcfg.
    split; [reflexivity|]. now apply cache_get_inv in Hget as (Hc & _).
  - intros Hcfg. unfold fetchSalaries. now rewrite Hcfg.
Qed.

Lemma missing_url_fails_before_any_call_witness :
  fetchSalaries no_config (acme_upstream (fun _ => 0)) (Some 1) (Some 9) (Some "Engineer")
    (empty_world 0)
  = (Throw (Error "Glassdoor graph URL is not configured"), empty_world 0).
Proof.
  destruct (missing_url_fails_before_any_call no_config (acme_upstream (fun _ => 0))
              "Acme" (Some 1) (Some 9) (Some "Engineer") (empty_world 0) (empty_world 0)
              None eq_refl) as (_ & _ & H).
  apply H. reflexivity.
Defined.

(** X15: a response outside 200..299 is an error and is not cached.  After a
    miss, with the URL configured, each lookup throws the error that names
    the status; exactly one call has been recorded, its latency has passed,
    and the cache is what the miss left. *)
Theorem non_success_status_throws (cfg : Config) (up : Upstream)
    (n : string) (a b : option Z) (t : option string) (w w1 : World) (v : option Any)
    (status : Z) :
  truthy_value v = false ->
  ok status = false ->
  (configured (baseUrl cfg) = true ->
   cache_get (generateCompanyCacheKey n) w = (Return v, w1) ->
   (exists body, company_search up n = Responded status body) ->
   fetchGlassdoorCompanies cfg up n w
   = (Throw (Error ("API request failed with status " +:+ pretty status)),
      after_call up (CompanySearch n) w1)) /\
  (configured (graphUrl cfg) = true ->
   cache_get (generateJobCacheKey n) w = (Return v, w1) ->
   (exists body, job_autocomplete up n = Responded status body) ->
   fetchJobTitles cfg up n w
   = (Throw (Error ("GraphQL request failed with status " +:+ pretty status)),
      after_call up (JobTitleAutocomplete n) w1)) /\
  (configured (graphUrl cfg) = true ->
   (exists body, salaries_query up a b t = Responded status body) ->
   fetchSalaries cfg up a b t w
   = (Throw (Error ("GraphQL request failed with status " +:+ pretty status)),
      after_call up (EiSalariesGraphQuery a b t) w)).
Proof.
  intros Hv Hok. split; [|split].
  - intros Hcfg Hget [body Hr].
    rewrite (fetchGlassdoorCompanies_miss cfg up n w w1 v Hget Hv), Hcfg, Hr. simpl.
    now rewrite Hok.
  - intros Hcfg Hget [body Hr].
    rewrite (fetchJobTitles_miss cfg up n w w1 v Hget Hv), Hcfg, Hr. simpl.
    now rewrite Hok.
  - intros Hcfg [body Hr]. unfold fetchSalaries, bind, fetch.
    rewrite Hcfg, Hr. simpl. now rewrite Hok.
Qed.

Lemma non_success_status_throws_witness :
  fetchGlassdoorCompanies stub_config (failing_upstream 503) "Acme" (empty_world 0)
  = (Throw (Error "API request failed with status 503"),
     after_call (failing_upstream 503) (CompanySearch "Acme") (empty_world 0)).
Proof.
  destruct (non_success_status_throws stub_config (failing_upstream 503) "Acme"
              None None None (empty_world 0) (empty_world 0) None 503 eq_refl eq_refl)
    as (H & _).
  apply H; [reflexivity | reflexivity | eexists; reflexivity].
Defined.

(** X16: a non-empty result is remembered for 30 days.  When, after a miss,
    the company search answers with a success status and a non-empty employer
    list, the lookup returns that list; from then on, at any time up to 30
    days later, a lookup of the same name returns the same list and changes
    nothing, under any configuration and whatever the upstream has become.
    The same holds for the job-title lookup. *)
Theorem lookup_results_cached_30_days (cfg : Config) (up : Upstream) (n : string)
    (w w1 : World) (v : option Any) (status : Z) (x : Entity) (xs : list Entity) :
  truthy_value v = false ->
  ok status = true ->
  (configured (baseUrl cfg) = true ->
   cache_get (generateCompanyCacheKey n) w = (Return v, w1) ->
   company_search up n = Responded status (company_body (x :: xs)) ->
   exists w',
     fetchGlassdoorCompanies cfg up n w = (Return (Items (x :: xs)), w') /\
     calls w' = (calls w ++ [CompanySearch n])%list /\
     forall cfg' up' t, t <= clock w' + 30 * 24 * 60 * 60 * 1000 ->
       fetchGlassdoorCompanies cfg' up' n (at_time t w')
       = (Return (Items (x :: xs)), at_time t w')) /\
  (configured (graphUrl cfg) = true ->
   cache_get (generateJobCacheKey n) w = (Return v, w1) ->
   job_autocomplete up n = Responded status (job_body (x :: xs)) ->
   exists w',
     fetchJobTitles cfg up n w = (Return (Items (x :: xs)), w') /\
     calls w' = (calls w ++ [JobTitleAutocomplete n])%list /\
     forall cfg' up' t, t <= clock w' + 30 * 24 * 60 * 60 * 1000 ->
       fetchJobTitles cfg' up' n (at_time t w')
       = (Return (Items (x :: xs)), at_time t w')).
Proof.
  intros Hv Hok. split.
  - intros Hcfg Hget Hr.
    rewrite (fetchGlassdoorCompanies_miss cfg up n w w1 v Hget Hv), Hcfg, Hr. simpl.
    rewrite Hok. simpl. eexists. split; [reflexivity|].
    apply cache_get_inv in Hget as (Hc & _). simpl. rewrite Hc.
    split; [reflexivity|]. intros cfg' up' t Ht.
    eapply fetchGlassdoorCompanies_hit_value;
      [cbn [at_time cache]; apply lookup_insert_eq
      | cbn [at_time clock] in *; unfold thirty_days; lia
      | reflexivity].
  - intros Hcfg Hget Hr.
    rewrite (fetchJobTitles_miss cfg up n w w1 v Hget Hv), Hcfg, Hr. simpl.
    rewrite Hok. simpl. eexists. split; [reflexivity|].
    apply cache_get_inv in Hget as (Hc & _). simpl. rewrite Hc.
    split; [reflexivity|]. intros cfg' up' t Ht.
    eapply fetchJobTitles_hit_value;
      [cbn [at_time cache]; apply lookup_insert_eq
      | cbn [at_time clock] in *; unfold thirty_days; lia
      | reflexivity].
Qed.

Lemma lookup_results_cached_30_days_witness :
  exists w',
    fetchGlassdoorCompanies stub_config (acme_upstream (fun _ => 0)) "Acme" (empty_world 0)
    = (Return (Items [acme]), w') /\
    fetchGlassdoorCompanies no_config (failing_upstream 500) "Acme" (at_time 86400000 w')
    = (Return (Items [acme]), at_time 86400000 w').
Proof.
  destruct (lookup_results_cached_30_days stub_config (acme_upstream (fun _ => 0)) "Acme"
              (empty_world 0) (empty_world 0) None 200 acme [] eq_refl eq_refl) as (H & _).
  destruct (H eq_refl eq_refl eq_refl) as (w' & Hrun & Hcalls & Hlater).
  exists w'. split; [exact Hrun|].
  apply Hlater. apply (f_equal snd) in Hrun. simpl in Hrun. subst w'.
  vm_compute. discriminate.
Defined.

(** X17: an empty result is not remembered.  When, after a miss, the company
    search answers with a success status and an empty or absent employer
    list, or the autocomplete answers with no suggestions, the lookup returns
    the empty result, and the cache is what the miss left: nothing has been
    written under the key. *)
Theorem empty_results_not_cached (cfg : Config) (up : Upstream) (n : string)
    (w w1 : World) (v : option Any) (status : Z) :
  truthy_value v = false ->
  ok status = true ->
  (configured (baseUrl cfg) = true ->
   cache_get (generateCompanyCacheKey n) w = (Return v, w1) ->
   (company_search up n = Responded status (company_body []) ->
    fetchGlassdoorCompanies cfg up n w
    = (Return (Items []), after_call up (CompanySearch n) w1)) /\
   (company_search up n
    = Responded status (mkCompanyBody (Some (mkCompanyJson (Some (mkEmployersResponse None))))) ->
    fetchGlassdoorCompanies cfg up n w
    = (Return Undefined, after_call up (CompanySearch n) w1))) /\
  (configured (graphUrl cfg) = true ->
   cache_get (generateJobCacheKey n) w = (Return v, w1) ->
   forall body,
     job_autocomplete up n = Responded status body ->
     default [] (d ← (b ← head body; job_data b); jobTitleAutocomplete d) = [] ->
     fetchJobTitles cfg up n w
     = (Return (Items []), after_call up (JobTitleAutocomplete n) w1)).
Proof.
  intros Hv Hok. split.
  - intros Hcfg Hget. split; intros Hr;
      rewrite (fetchGlassdoorCompanies_miss cfg up n w w1 v Hget Hv), Hcfg, Hr; simpl;
      now rewrite Hok.
  - intros Hcfg Hget body Hr Hnone.
    rewrite (fetchJobTitles_miss cfg up n w w1 v Hget Hv), Hcfg, Hr. simpl.
    now rewrite Hok, Hnone.
Qed.

Lemma empty_results_not_cached_witness :
  cache (snd (fetchGlassdoorCompanies stub_config
                (stub_upstream [] [] [] (fun _ => 0)) "Acme" (empty_world 0)))
  = ∅.
Proof.
  destruct (empty_results_not_cached stub_config (stub_upstream [] [] [] (fun _ => 0))
              "Acme" (empty_world 0) (empty_world 0) None 200 eq_refl eq_refl) as (H & _).
  destruct (H eq_refl eq_refl) as (H1 & _).
  rewrite (H1 eq_refl). reflexivity.
Defined.

(** X18: the salary lookup is never cached.  It neither reads nor writes the
    cache, whatever happens; with the graph URL configured every call of it
    is one outbound call, so two lookups of the same arguments are two
    calls. *)
Theorem fetchSalaries_is_always_live (cfg : Config) (up : Upstream)
    (a b : option Z) (t : option string) (w : World) :
  cache (snd (fetchSalaries cfg up a b t w)) = cache w /\
  (configured (graphUrl cfg) = true ->
   calls (snd (fetchSalaries cfg up a b t w))
   = (calls w ++ [EiSalariesGraphQuery a b t])%list /\
   clock (snd (fetchSalaries cfg up a b t w))
   = clock w + latency up (EiSalariesGraphQuery a b t) /\
   calls (snd (fetchSalaries cfg up a b t (snd (fetchSalaries cfg up a b t w))))
   = (calls w ++ [EiSalariesGraphQuery a b t; EiSalariesGraphQuery a b t])%list).
Proof.
  assert (Hrun : forall w0, configured (graphUrl cfg) = true ->
            snd (fetchSalaries cfg up a b t w0)
            = after_call up (EiSalariesGraphQuery a b t) w0).
  { intros w0 Hcfg. unfold fetchSalaries, bind, fetch, ret, throw. rewrite Hcfg. simpl.
    destruct (salaries_query up a b t) as [|status body]; [reflexivity|]. simpl.
    destruct (negb (ok status)); [reflexivity|].
    destruct (head body ≫= salary_data) as [d|]; [|reflexivity].
    destruct (aggregatedSalaryEstimates d); reflexivity. }
  split.
  - destruct (configured (graphUrl cfg)) eqn:Hcfg.
    + now rewrite Hrun.
    + unfold fetchSalaries. now rewrite Hcfg.
  - intros Hcfg. rewrite !Hrun by exact Hcfg. simpl.
    repeat split. now rewrite <- app_assoc.
Qed.

Lemma fetchSalaries_is_always_live_witness :
  calls (snd (fetchSalaries stub_config (acme_upstream (fun _ => 0))
                (Some 1) (Some 9) (Some "Engineer") warm_world))
  = [EiSalariesGraphQuery (Some 1) (Some 9) (Some "Engineer")].
Proof.
  destruct (fetchSalaries_is_always_live stub_config (acme_upstream (fun _ => 0))
              (Some 1) (Some 9) (Some "Engineer") warm_world) as (_ & H).
  destruct (H eq_refl) as (Hc & _). rewrite Hc. reflexivity.
Defined.

Section OrchestratorAccounting.

Variable cfg : Config.
Variable up : Upstream.
Variable toISOString : Z -> string.

Lemma total_latency_app (l1 l2 : list Request) :
  total_latency up (l1 ++ l2) = total_latency up l1 + total_latency up l2.
Proof. induction l1 as [|r l1 IH]; simpl; [reflexivity|]. rewrite IH. lia. Qed.

Lemma cache_get_frame (key k : string) (w : World) :
  k <> key -> cache (snd (cache_get key w)) !! k = cache w !! k.
Proof.
  intros Hne. unfold cache_get.
  pose proof (getCacheValue_other (cache w) key k (clock w) ltac:(congruence)) as H.
  destruct (getCacheValue (clock w) key (cache w)). exact H.
Qed.

(** One lookup: at most its own request, in the time that takes, and no
    other key of the cache changes. *)
Lemma fetchGlassdoorCompanies_step (n : string) (w w' : World) (o : Outcome Any) :
  fetchGlassdoorCompanies cfg up n w = (o, w') ->
  (exists l, (l = [] \/ l = [CompanySearch n]) /\
             calls w' = (calls w ++ l)%list /\
             clock w' = clock w + total_latency up l) /\
  (forall k, k <> generateCompanyCacheKey n -> cache w' !! k = cache w !! k).
Proof.
  unfold fetchGlassdoorCompanies, bind.
  destruct (cache_get _ w) as [o1 w1] eqn:Hget.
  assert (Hframe : forall k, k <> generateCompanyCacheKey n -> cache w1 !! k = cache w !! k).
  { intros k Hk. pose proof (cache_get_frame _ k w Hk) as F.
    now rewrite Hget in F. }
  apply cache_get_inv in Hget as (Hc & Ht & v & -> & _).
  unfold fetch, cache_set, ret, throw, setCacheValue.
  intros H.
  repeat case_match; simplify_eq; simpl; rewrite ?Hc, ?Ht;
    (split;
     [ first [ exists []; rewrite app_nil_r; simpl; split; [auto|split; [reflexivity|lia]]
             | eexists [_]; simpl; split; [auto|split; [reflexivity|lia]] ]
     | intros k Hk; specialize (Hframe k Hk);
       rewrite ?lookup_insert_ne by congruence; exact Hframe ]).
Qed.

Lemma fetchJobTitles_step (n : string) (w w' : World) (o : Outcome Any) :
  fetchJobTitles cfg up n w = (o, w') ->
  (exists l, (l = [] \/ l = [JobTitleAutocomplete n]) /\
             calls w' = (calls w ++ l)%list /\
             clock w' = clock w + total_latency up l) /\
  (forall k, k <> generateJobCacheKey n -> cache w' !! k = cache w !! k).
Proof.
  unfold fetchJobTitles, bind.
  destruct (cache_get _ w) as [o1 w1] eqn:Hget.
  assert (Hframe : forall k, k <> generateJobCacheKey n -> cache w1 !! k = cache w !! k).
  { intros k Hk. pose proof (cache_get_frame _ k w Hk) as F.
    now rewrite Hget in F. }
  apply cache_get_inv in Hget as (Hc & Ht & v & -> & _).
  unfold fetch, cache_set, ret, throw, setCacheValue.
  intros H.
  repeat case_match; simplify_eq; simpl; rewrite ?Hc, ?Ht;
    (split;
     [ first [ exists []; rewrite app_nil_r; simpl; split; [auto|split; [reflexivity|lia]]
             | eexists [_]; simpl; split; [auto|split; [reflexivity|lia]] ]
     | intros k Hk; specialize (Hframe k Hk);
       rewrite ?lookup_insert_ne by congruence; exact Hframe ]).
Qed.

Lemma fetchSalaries_step (a b : option Z) (t : option string) (w w' : World)
    (o : Outcome (list SalaryRecord)) :
  fetchSalaries cfg up a b t w = (o, w') ->
  (exists l, (l = [] \/ l = [EiSalariesGraphQuery a b t]) /\
             calls w' = (calls w ++ l)%list /\
             clock w' = clock w + total_latency up l) /\
  cache w' = cache w.
Proof.
  unfold fetchSalaries, bind, fetch, ret, throw.
  intros H.
  repeat case_match; simplify_eq; simpl;
    (split;
     [ first [ exists []; rewrite app_nil_r; simpl; split; [auto|split; [reflexivity|lia]]
             | eexists [_]; simpl; split; [auto|split; [reflexivity|lia]] ]
     | reflexivity ]).
Qed.



Lemma getSalaryInfo_account (cn jt : string) (w w' : World) (o : Outcome Any) :
  getSalaryInfo cfg up toISOString cn jt w = (o, w') ->
  exists cs js ss,
    (cs = [] \/ cs = [CompanySearch (formatName cn)]) /\
    (js = [] \/ js = [JobTitleAutocomplete (formatName jt)]) /\
    (ss = [] \/ exists a b t, ss = [EiSalariesGraphQuery a b t]) /\
    calls w' = (calls w ++ cs ++ js ++ ss)%list /\
    clock w' = clock w + total_latency up (cs ++ js ++ ss).
Proof.
  destruct (cache_get (generateCacheKey cn jt) w) as [o1 w1] eqn:Hget.
  pose proof Hget as Hinv.
  apply cache_get_inv in Hinv as (Hc1 & Ht1 & v & -> & _).
  destruct (truthy_value v) eqn:Hv.
  - unfold getSalaryInfo, bind. rewrite Hget, Hv. unfold ret.
    intros [= <- <-]. exists [], [], []. simpl. rewrite app_nil_r.
    repeat split; auto. lia.
  - rewrite (getSalaryInfo_miss _ _ _ _ _ _ _ _ Hget Hv). unfold bind.
    destruct (fetchGlassdoorCompanies _ _ _ _) as [o2 w2] eqn:H2.
    apply fetchGlassdoorCompanies_step in H2 as ((cs & Hcs & E2 & T2) & _).
    rewrite Hc1 in E2. rewrite Ht1 in T2.
    assert (Stop2 : exists cs js ss,
      (cs = [] \/ cs = [CompanySearch (formatName cn)]) /\
      (js = [] \/ js = [JobTitleAutocomplete (formatName jt)]) /\
      (ss = [] \/ exists a b t, ss = [EiSalariesGraphQuery a b t]) /\
      calls w2 = (calls w ++ cs ++ js ++ ss)%list /\
      clock w2 = clock w + total_latency up (cs ++ js ++ ss)).
    { exists cs, [], []. simpl. rewrite app_nil_r. repeat split; auto. }
    destruct o2 as [[| [|c cl] |]|]; try (unfold throw; intros [= <- <-]; exact Stop2).
    clear Stop2.
    destruct (fetchJobTitles _ _ _ _) as [o3 w3] eqn:H3.
    apply fetchJobTitles_step in H3 as ((js & Hjs & E3 & T3) & _).
    rewrite E2 in E3. rewrite T2 in T3.
    assert (Stop3 : exists cs js ss,
      (cs = [] \/ cs = [CompanySearch (formatName cn)]) /\
      (js = [] \/ js = [JobTitleAutocomplete (formatName jt)]) /\
      (ss = [] \/ exists a b t, ss = [EiSalariesGraphQuery a b t]) /\
      calls w3 = (calls w ++ cs ++ js ++ ss)%list /\
      clock w3 = clock w + total_latency up (cs ++ js ++ ss)).
    { exists cs, js, []. rewrite app_nil_r, total_latency_app.
      rewrite <- app_assoc in E3. repeat split; auto. lia. }
    destruct o3 as [[| [|j jl] |]|]; try (unfold throw; intros [= <- <-]; exact Stop3).
    clear Stop3.
    destruct (fetchSalaries _ _ _ _ _ _) as [o4 w4] eqn:H4.
    apply fetchSalaries_step in H4 as ((ss & Hss & E4 & T4) & _).
    rewrite E3 in E4. rewrite T3 in T4.
    assert (Stop4 : exists cs js ss,
      (cs = [] \/ cs = [CompanySearch (formatName cn)]) /\
      (js = [] \/ js = [JobTitleAutocomplete (formatName jt)]) /\
      (ss = [] \/ exists a b t, ss = [EiSalariesGraphQuery a b t]) /\
      calls w4 = (calls w ++ cs ++ js ++ ss)%list /\
      clock w4 = clock w + total_latency up (cs ++ js ++ ss)).
    { exists cs, js, ss. rewrite !total_latency_app.
      rewrite <- !app_assoc in E4. repeat split; auto.
      - destruct Hss as [-> | ->]; [left; reflexivity | right; eauto].
      - lia. }
    destruct o4 as [l|]; [|intros [= <- <-]; exact Stop4].
    unfold date_now, cache_set, ret. simpl. intros [= <- <-]. exact Stop4.
Qed.


End OrchestratorAccounting.





Lemma find_percentile_unique (p : string) (l : list Percentile) (x : Percentile) :
  NoDup (ident <$> l) -> x ∈ l -> ident x = Some p ->
  find_percentile p l = percentile_value x.
Proof.
  induction l as [|a l IH]; intros Hnd Hx Hp.
  - now apply elem_of_nil in Hx.
  - rewrite fmap_cons in Hnd. apply NoDup_cons in Hnd as [Ha Hnd].
    unfold find_percentile. simpl.
    destruct (bool_decide (ident a = Some p)) eqn:E.
    + apply bool_decide_eq_true in E. simpl.
      apply elem_of_cons in Hx as [-> | Hx]; [reflexivity|].
      exfalso. apply Ha. rewrite E, <- Hp. now apply list_elem_of_fmap_2.
    + apply bool_decide_eq_false in E.
      apply elem_of_cons in Hx as [-> | Hx]; [contradiction|].
      now apply IH.
Qed.

Lemma find_percentile_absent (p : string) (l : list Percentile) :
  (forall x, x ∈ l -> ident x <> Some p) -> find_percentile p l = None.
Proof.
  induction l as [|a l IH]; intros H; [reflexivity|].
  unfold find_percentile. simpl.
  rewrite bool_decide_eq_false_2 by (apply H; left).
  apply IH. intros x Hx. apply H. now right.
Qed.

Lemma find_percentile_cases (p : string) (l : list Percentile) :
  (exists x, x ∈ l /\ ident x = Some p) \/ (forall x, x ∈ l -> ident x <> Some p).
Proof.
  induction l as [|a l [(x & Hx & Hp) | IH]].
  - right. intros x Hx. now apply elem_of_nil in Hx.
  - left. exists x. split; [now right | exact Hp].
  - destruct (decide (ident a = Some p)) as [Ha|Ha].
    + left. exists a. split; [left | exact Ha].
    + right. intros x [-> | Hx]%elem_of_cons; [exact Ha | now apply IH].
Qed.

(** X21: percentiles are matched by their identifier, not by their position:
    when no identifier occurs twice, reordering the percentile list of a
    salary record changes neither the value found for any identifier nor the
    composed result. *)
Theorem percentiles_matched_by_ident (toISOString : Z -> string) (c j : Entity)
    (cur : option Currency) (count : option Z) (l l' : list Percentile) (now : Z) :
  Permutation l l' ->
  NoDup (ident <$> l) ->
  (forall p, find_percentile p l = find_percentile p l') /\
  compose toISOString c j (mkSalaryRecord cur count (Some (mkPayStatistics (Some l)))) now
  = compose toISOString c j (mkSalaryRecord cur count (Some (mkPayStatistics (Some l')))) now.
Proof.
  intros Hperm Hnd.
  assert (Hnd' : NoDup (ident <$> l')) by now rewrite <- Hperm.
  assert (Hfind : forall p, find_percentile p l = find_percentile p l').
  { intros p. destruct (find_percentile_cases p l) as [(x & Hx & Hp) | Hnone].
    - rewrite (find_percentile_unique p l x Hnd Hx Hp).
      symmetry. apply find_percentile_unique; [exact Hnd' | now rewrite <- Hperm | exact Hp].
    - rewrite (find_percentile_absent p l Hnone).
      symmetry. apply find_percentile_absent. intros x Hx. apply Hnone.
      now rewrite Hperm. }
  split; [exact Hfind|].
  unfold compose. simpl. now rewrite !Hfind.
Qed.

Lemma percentiles_matched_by_ident_witness :
  find_percentile "P50"
    [mkPercentile (Some "P75") (Some 120000); mkPercentile (Some "P50") (Some 100000)]
  = Some 100000.
Proof.
  destruct (percentiles_matched_by_ident stub_toISOString acme engineer None None
              [mkPercentile (Some "P50") (Some 100000); mkPercentile (Some "P75") (Some 120000)]
              [mkPercentile (Some "P75") (Some 120000); mkPercentile (Some "P50") (Some 100000)]
              0 (perm_swap _ _ _)) as (H & _).
  - apply (bool_decide_unpack _). vm_compute. exact I.
  - rewrite <- H. reflexivity.
Defined.

(** * Properties of the HTTP handler *)

Import Index.

Section HandlerFacts.

Variable cfg : Config.
Variable up : Upstream.
Variable toISOString : Z -> string.
Variable stringify_length : Any -> Z.
Variable requestId : Z -> string.

Lemma missing_false (param : option string) :
  missing param = false -> exists p, param = Some p /\ truthy p = true.
Proof.
  destruct param as [p|]; simpl; [|discriminate].
  intros H. exists p. split; [reflexivity|]. now apply negb_false_iff.
Qed.

(** The handler once the request has passed validation. *)
Lemma handler_valid (req : HttpRequest) (w : World) (cn jt : string) :
  method req = "GET" ->
  query_jobTitle req = Some jt -> truthy jt = true ->
  query_companyName req = Some cn -> truthy cn = true ->
  findGlassdoorSalary cfg up toISOString stringify_length requestId req w =
  match getSalaryInfo cfg up toISOString cn jt w with
  | (Return (Composed r), w') =>
      let body stats :=
        {| body_jobTitle := job_title r;
           body_company := company_name r;
           body_companyRating := company_rating r;
           body_location :=
             if missing (query_location req) then "All locations"
             else default EmptyString (query_location req);
           body_averageSalary := salary_median r;
           body_salaryRange := salary_range r;
           body_salaryCount := job_salaryCount r;
           body_source :=
             source r +:+ " (" +:+ pretty (job_salaryCount r) +:+ " salary reports)";
           body_timestamp := toISOString (clock w');
           body_requestTimeMs := clock w' - clock w;
           body_cacheStats := stats |} in
      if bool_decide (query_showCacheStats req = Some "true") then
        match cache_stats stringify_length w' with
        | (Return stats, w'') => (Status200 (body (Some stats)), w'')
        | (Throw _, w'') => (internal_error toISOString requestId w'', w'')
        end
      else (Status200 (body None), w')
  | (_, w') => (internal_error toISOString requestId w', w')
  end.
Proof.
  intros Hm Hj Htj Hc Htc. unfold findGlassdoorSalary.
  rewrite Hm, Hj, Hc. simpl. rewrite Htj, Htc. simpl.
  destruct (getSalaryInfo cfg up toISOString cn jt w) as [[[| |r]|e] w'];
    reflexivity.
Qed.

Lemma cache_stats_world (w w' : World) (o : Outcome CacheStats) :
  cache_stats stringify_length w = (o, w') -> w' = w.
Proof. unfold cache_stats. destruct (map_fold _ _ _); now intros [= _ <-]. Qed.

End HandlerFacts.

(** X22: validation comes first and has no effect.  A request whose method is
    not GET is answered 404; a GET without (or with an empty) [jobTitle] is
    answered 400 naming [jobTitle], also when [companyName] is missing too; a
    GET with a job title but without [companyName] is answered 400 naming
    [companyName].  In all three cases the world is untouched: no cache read
    and no upstream call.  Conversely a 404 is only ever the answer to a
    method other than GET and a 400 to a GET that lacks a parameter. *)
Theorem handler_validation (cfg : Config) (up : Upstream) (toISOString : Z -> string)
    (stringify_length : Any -> Z) (requestId : Z -> string)
    (req : HttpRequest) (w : World) :
  (method req <> "GET" ->
   findGlassdoorSalary cfg up toISOString stringify_length requestId req w
   = (Status404 "NOT FOUND" "API Not Found", w)) /\
  (method req = "GET" -> missing (query_jobTitle req) = true ->
   findGlassdoorSalary cfg up toISOString stringify_length requestId req w
   = (Status400 "Missing required parameter: jobTitle", w)) /\
  (method req = "GET" -> missing (query_jobTitle req) = false ->
   missing (query_companyName req) = true ->
   findGlassdoorSalary cfg up toISOString stringify_length requestId req w
   = (Status400 "Missing required parameter: companyName", w)) /\
  (forall e m,
     fst (findGlassdoorSalary cfg up toISOString stringify_length requestId req w)
     = Status404 e m -> method req <> "GET") /\
  (forall e,
     fst (findGlassdoorSalary cfg up toISOString stringify_length requestId req w)
     = Status400 e ->
     method req = "GET" /\
     (missing (query_jobTitle req) = true \/ missing (query_companyName req) = true) /\
     snd (findGlassdoorSalary cfg up toISOString stringify_length requestId req w) = w).
Proof.
  assert (Hvalid : method req = "GET" -> missing (query_jobTitle req) = false ->
            missing (query_companyName req) = false ->
            forall e m,
              fst (findGlassdoorSalary cfg up toISOString stringify_length requestId req w)
              <> Status404 e m /\
              fst (findGlassdoorSalary cfg up toISOString stringify_length requestId req w)
              <> Status400 e).
  { intros Hm Hj Hc e m.
    destruct (missing_false _ Hj) as (jt & Ej & Tj).
    destruct (missing_false _ Hc) as (cn & Ec & Tc).
    rewrite (handler_valid cfg up toISOString stringify_length requestId
               req w cn jt Hm Ej Tj Ec Tc).
    destruct (getSalaryInfo cfg up toISOString cn jt w) as [[[| |r]|x] w'];
      try (split; discriminate).
    cbv zeta. destruct (bool_decide _); [|split; discriminate].
    destruct (cache_stats stringify_length w') as [[st|x] w'']; split; discriminate. }
  destruct (String.eqb_spec (method req) "GET") as [Hm|Hm].
  - destruct (missing (query_jobTitle req)) eqn:Hj.
    + assert (Hrun : findGlassdoorSalary cfg up toISOString stringify_length requestId req w
                     = (Status400 "Missing required parameter: jobTitle", w)).
      { unfold findGlassdoorSalary. rewrite Hm, Hj. reflexivity. }
      rewrite Hrun. simpl.
      split; [congruence|]. split; [trivial|]. split; [discriminate|].
      split; [discriminate|]. intros e _. auto.
    + destruct (missing (query_companyName req)) eqn:Hc.
      * assert (Hrun : findGlassdoorSalary cfg up toISOString stringify_length requestId req w
                       = (Status400 "Missing required parameter: companyName", w)).
        { unfold findGlassdoorSalary. rewrite Hm, Hj, Hc. reflexivity. }
        rewrite Hrun. simpl.
        split; [congruence|]. split; [discriminate|]. split; [trivial|].
        split; [discriminate|]. intros e _. auto.
      * split; [congruence|]. split; [discriminate|]. split; [discriminate|].
        split.
        -- intros e m H. exfalso.
           destruct (Hvalid Hm eq_refl eq_refl e m) as [H1 _]. contradiction.
        -- intros e H. exfalso.
           destruct (Hvalid Hm eq_refl eq_refl e e) as [_ H2]. contradiction.
  - assert (Hrun : findGlassdoorSalary cfg up toISOString stringify_length requestId req w
                   = (Status404 "NOT FOUND" "API Not Found", w)).
    { unfold findGlassdoorSalary.
      destruct (String.eqb_spec (method req) "GET"); [contradiction | reflexivity]. }
    rewrite Hrun. simpl.
    split; [trivial|]. split; [contradiction|]. split; [contradiction|].
    split; [intros; exact Hm | discriminate].
Qed.

Lemma handler_validation_witness :
  findGlassdoorSalary stub_config (acme_upstream (fun _ => 0)) stub_toISOString
    (fun _ => 1) stub_toISOString
    (mkHttpRequest "GET" None None None None) (empty_world 0)
  = (Status400 "Missing required parameter: jobTitle", empty_world 0).
Proof.
  destruct (handler_validation stub_config (acme_upstream (fun _ => 0)) stub_toISOString
              (fun _ => 1) stub_toISOString
              (mkHttpRequest "GET" None None None None) (empty_world 0)) as (_ & H & _).
  apply H; reflexivity.
Defined.

Lemma getSalaryInfo_request_budget (cfg : Config) (up : Upstream)
    (toISOString : Z -> string) (cn jt : string) (w w' : World) (o : Outcome Any) :
  getSalaryInfo cfg up toISOString cn jt w = (o, w') ->
  exists new,
    calls w' = (calls w ++ new)%list /\
    (length new <= 3)%nat.
Proof.
  intros Hrun.
  destruct (getSalaryInfo_account cfg up toISOString cn jt w w' o Hrun)
    as (cs & js & ss & Hcs & Hjs & Hss & Hcalls & _).
  exists (cs ++ js ++ ss)%list. split; [exact Hcalls|].
  rewrite !length_app.
  destruct Hcs as [-> | ->], Hjs as [-> | ->], Hss as [-> | (a & b & t & ->)];
    simpl; lia.
Qed.

(** X23: the body of a successful answer.  For a GET with both parameters,
    when [getSalaryInfo] returns a composed result and cache statistics are
    not asked for, the answer is 200: [averageSalary] is the formatted median,
    [salaryRange] the formatted range, [source] the result's source followed
    by the number of salary reports, [location] is ["All locations"] when
    none is given, and no statistics are attached.  The request has issued at
    most three upstream calls. *)
Theorem handler_success_body (cfg : Config) (up : Upstream) (toISOString : Z -> string)
    (stringify_length : Any -> Z) (requestId : Z -> string)
    (req : HttpRequest) (w w1 : World) (cn jt : string) (r : SalaryInfo) :
  method req = "GET" ->
  query_jobTitle req = Some jt -> truthy jt = true ->
  query_companyName req = Some cn -> truthy cn = true ->
  query_showCacheStats req <> Some "true" ->
  getSalaryInfo cfg up toISOString cn jt w = (Return (Composed r), w1) ->
  exists body,
    findGlassdoorSalary cfg up toISOString stringify_length requestId req w
    = (Status200 body, w1) /\
    body_averageSalary body = salary_median r /\
    body_salaryRange body = salary_range r /\
    body_jobTitle body = job_title r /\
    body_company body = company_name r /\
    body_companyRating body = company_rating r /\
    body_salaryCount body = job_salaryCount r /\
    body_source body
    = source r +:+ " (" +:+ pretty (job_salaryCount r) +:+ " salary reports)" /\
    body_cacheStats body = None /\
    (missing (query_location req) = true -> body_location body = "All locations") /\
    (forall l, query_location req = Some l -> truthy l = true -> body_location body = l) /\
    exists new,
      calls w1 = (calls w ++ new)%list /\
      (length new <= 3)%nat.
Proof.
  intros Hm Hj Htj Hc Htc Hstats Hrun.
  rewrite (handler_valid cfg up toISOString stringify_length requestId
             req w cn jt Hm Hj Htj Hc Htc), Hrun.
  cbv zeta. rewrite bool_decide_eq_false_2 by exact Hstats.
  eexists. split; [reflexivity|]. simpl.
  do 8 (split; [reflexivity|]).
  split; [intros ->; reflexivity|].
  split; [intros l -> Hl; simpl; now rewrite Hl|].
  exact (getSalaryInfo_request_budget cfg up toISOString cn jt w w1 _ Hrun).
Qed.

Lemma handler_success_body_witness :
  exists body,
    fst (findGlassdoorSalary stub_config (acme_upstream (fun _ => 25)) stub_toISOString
           (fun _ => 1) stub_toISOString
           (mkHttpRequest "GET" (Some "Acme") (Some "Engineer") None None) (empty_world 0))
    = Status200 body /\
    body_averageSalary body = "$1 lakh" /\
    body_source body = "Glassdoor (0 salary reports)".
Proof.
  assert (Hrun :
    getSalaryInfo stub_config (acme_upstream (fun _ => 25)) stub_toISOString
      "Acme" "Engineer" (empty_world 0)
    = (Return (Composed (compose stub_toISOString acme engineer usd_record 75)),
       snd (getSalaryInfo stub_config (acme_upstream (fun _ => 25)) stub_toISOString
              "Acme" "Engineer" (empty_world 0))))
    by (vm_compute; reflexivity).
  destruct (handler_success_body stub_config (acme_upstream (fun _ => 25)) stub_toISOString
              (fun _ => 1) stub_toISOString
              (mkHttpRequest "GET" (Some "Acme") (Some "Engineer") None None)
              (empty_world 0) _ "Acme" "Engineer" _
              eq_refl eq_refl eq_refl eq_refl eq_refl ltac:(discriminate) Hrun)
    as (body & Hbody & Havg & _ & _ & _ & _ & _ & Hsrc & _).
  exists body. rewrite Hbody, Havg, Hsrc. repeat split.
Defined.

(** X24: errors are masked.  For a GET with both parameters, whenever
    [getSalaryInfo] does not return a composed result - whatever it throws -
    the answer is a 500 whose error and message are the same fixed texts;
    nothing of the failure is in it. *)
Theorem handler_masks_errors (cfg : Config) (up : Upstream) (toISOString : Z -> string)
    (stringify_length : Any -> Z) (requestId : Z -> string)
    (req : HttpRequest) (w w1 : World) (cn jt : string) (o : Outcome Any) :
  method req = "GET" ->
  query_jobTitle req = Some jt -> truthy jt = true ->
  query_companyName req = Some cn -> truthy cn = true ->
  getSalaryInfo cfg up toISOString cn jt w = (o, w1) ->
  (forall r, o <> Return (Composed r)) ->
  exists rid ts,
    findGlassdoorSalary cfg up toISOString stringify_length requestId req w
    = (Status500 "Internal Server Error"
         "Unable to retrieve salary data. Please try again later." rid ts, w1).
Proof.
  intros Hm Hj Htj Hc Htc Hrun Ho.
  rewrite (handler_valid cfg up toISOString stringify_length requestId
             req w cn jt Hm Hj Htj Hc Htc), Hrun.
  destruct o as [[| |r]|e]; try (eexists _, _; reflexivity). now destruct (Ho r).
Qed.

Lemma handler_masks_errors_witness :
  exists rid ts,
    fst (findGlassdoorSalary stub_config (failing_upstream 503) stub_toISOString
           (fun _ => 1) stub_toISOString
           (mkHttpRequest "GET" (Some "Acme") (Some "Engineer") None None) (empty_world 7))
    = Status500 "Internal Server Error"
        "Unable to retrieve salary data. Please try again later." rid ts.
Proof.
  destruct (handler_masks_errors stub_config (failing_upstream 503) stub_toISOString
              (fun _ => 1) stub_toISOString
              (mkHttpRequest "GET" (Some "Acme") (Some "Engineer") None None)
              (empty_world 7) _ "Acme" "Engineer" _
              eq_refl eq_refl eq_refl eq_refl eq_refl eq_refl ltac:(discriminate))
    as (rid & ts & H).
  exists rid, ts. now rewrite H.
Defined.




(** * Replays and expired entries *)

Lemma getSalaryInfo_return_truthy (cfg : Config) (up : Upstream)
    (toISOString : Z -> string) (cn jt : string) (w w' : World) (r : Any) :
  getSalaryInfo cfg up toISOString cn jt w = (Return r, w') ->
  truthy_value (Some r) = true.
Proof.
  destruct (cache_get (generateCacheKey cn jt) w) as [o1 w1] eqn:Hget.
  pose proof Hget as Hinv.
  apply cache_get_inv in Hinv as (_ & _ & v & -> & _).
  destruct (truthy_value v) eqn:Ht.
  - unfold getSalaryInfo, bind. rewrite Hget, Ht. unfold ret.
    destruct v as [x|]; [|discriminate]. now intros [= <- _].
  - rewrite (getSalaryInfo_miss _ _ _ _ _ _ _ _ Hget Ht). unfold bind.
    destruct (fetchGlassdoorCompanies _ _ _ _) as [[[| [|c cs] |]|] w2];
      try (unfold throw; discriminate).
    destruct (fetchJobTitles _ _ _ _) as [[[| [|j js] |]|] w3];
      try (unfold throw; discriminate).
    destruct (fetchSalaries _ _ _ _ _ _) as [[l|] w4]; [|discriminate].
    unfold date_now, cache_set, ret. simpl. now intros [= <- _].
Qed.

(** X26: a returned result is replayed.  Whenever [getSalaryInfo] returns a
    value, the cache then holds it under the combined key with an expiry not
    before the current time, and until that expiry every call with the same
    arguments returns the same value and changes nothing - under any
    configuration, upstream and clock format.  When the value was composed
    after a miss, the expiry is 15 days after the call ended. *)
Theorem returned_result_is_replayed (cfg : Config) (up : Upstream)
    (toISOString : Z -> string) (cn jt : string) (w w' : World) (r : Any) :
  getSalaryInfo cfg up toISOString cn jt w = (Return r, w') ->
  exists expires,
    clock w' <= expires /\
    (forall cfg' up' toISOString' t,
       t <= expires ->
       getSalaryInfo cfg' up' toISOString' cn jt (at_time t w') = (Return r, at_time t w')) /\
    (forall v w1,
       cache_get (generateCacheKey cn jt) w = (Return v, w1) ->
       truthy_value v = false ->
       expires = clock w' + 15 * 24 * 60 * 60 * 1000).
Proof.
  intros Hrun.
  destruct (getSalaryInfo_return_cached cfg up toISOString cn jt w w' r Hrun)
    as (e & He & Hval & Hle).
  pose proof (getSalaryInfo_return_truthy cfg up toISOString cn jt w w' r Hrun) as Htr.
  exists (expiresAt e). split; [exact Hle|]. split.
  - intros cfg' up' iso' t Ht. rewrite <- Hval.
    apply getSalaryInfo_hit; [exact He | exact Ht | now rewrite Hval].
  - intros v w1 Hget Hv.
    pose proof (getSalaryInfo_miss_writes cfg up toISOString cn jt w w1 w' v r Hget Hv Hrun)
      as Hw.
    rewrite He in Hw. injection Hw as ->. reflexivity.
Qed.

Lemma returned_result_is_replayed_witness :
  exists expires,
    0 <= expires /\
    getSalaryInfo no_config (failing_upstream 500) stub_toISOString "Acme" "Engineer"
      (at_time expires
         (snd (getSalaryInfo stub_config (acme_upstream (fun _ => 0)) stub_toISOString
                 "Acme" "Engineer" (empty_world 0))))
    = (Return (Composed (compose stub_toISOString acme engineer usd_record 0)),
       at_time expires
         (snd (getSalaryInfo stub_config (acme_upstream (fun _ => 0)) stub_toISOString
                 "Acme" "Engineer" (empty_world 0)))).
Proof.
  assert (Hrun :
    getSalaryInfo stub_config (acme_upstream (fun _ => 0)) stub_toISOString
      "Acme" "Engineer" (empty_world 0)
    = (Return (Composed (compose stub_toISOString acme engineer usd_record 0)),
       snd (getSalaryInfo stub_config (acme_upstream (fun _ => 0)) stub_toISOString
              "Acme" "Engineer" (empty_world 0))))
    by (vm_compute; reflexivity).
  destruct (returned_result_is_replayed _ _ _ _ _ _ _ _ Hrun) as (expires & Hle & Hreplay & _).
  exists expires. split; [exact Hle|]. apply Hreplay. lia.
Defined.

(** X27: an expired entry is as good as no entry.  With an expired entry
    under the key it reads first, the orchestrator (and each cached lookup)
    behaves exactly as on the store from which that entry has been removed:
    same outcome, same final world. *)
Theorem expired_entry_is_no_entry (cfg : Config) (up : Upstream)
    (toISOString : Z -> string) (cn jt n : string) (w : World) (e : CacheEntry Any) :
  expiresAt e < clock w ->
  (cache w !! generateCacheKey cn jt = Some e ->
   getSalaryInfo cfg up toISOString cn jt w
   = getSalaryInfo cfg up toISOString cn jt
       (mkWorld (delete (generateCacheKey cn jt) (cache w)) (clock w) (calls w))) /\
  (cache w !! generateCompanyCacheKey n = Some e ->
   fetchGlassdoorCompanies cfg up n w
   = fetchGlassdoorCompanies cfg up n
       (mkWorld (delete (generateCompanyCacheKey n) (cache w)) (clock w) (calls w))) /\
  (cache w !! generateJobCacheKey n = Some e ->
   fetchJobTitles cfg up n w
   = fetchJobTitles cfg up n
       (mkWorld (delete (generateJobCacheKey n) (cache w)) (clock w) (calls w))).
Proof.
  intros Hexp.
  assert (Hget : forall key, cache w !! key = Some e ->
    cache_get key w = (Return None, mkWorld (delete key (cache w)) (clock w) (calls w)) /\
    cache_get key (mkWorld (delete key (cache w)) (clock w) (calls w))
    = (Return None, mkWorld (delete key (cache w)) (clock w) (calls w))).
  { intros key Hk. split.
    - unfold cache_get. now rewrite (getCacheValue_expired _ _ _ _ Hk Hexp).
    - apply cache_get_absent. apply lookup_delete_eq. }
  split; [|split]; intros Hk; destruct (Hget _ Hk) as [H1 H2].
  - now rewrite (getSalaryInfo_miss _ _ _ _ _ _ _ _ H1 eq_refl),
               (getSalaryInfo_miss _ _ _ _ _ _ _ _ H2 eq_refl).
  - now rewrite (fetchGlassdoorCompanies_miss _ _ _ _ _ _ H1 eq_refl),
               (fetchGlassdoorCompanies_miss _ _ _ _ _ _ H2 eq_refl).
  - now rewrite (fetchJobTitles_miss _ _ _ _ _ _ H1 eq_refl),
               (fetchJobTitles_miss _ _ _ _ _ _ H2 eq_refl).
Qed.

Lemma expired_entry_is_no_entry_witness :
  fetchGlassdoorCompanies stub_config (acme_upstream (fun _ => 0)) "Acme"
    (at_time 2592000001 warm_world)
  = fetchGlassdoorCompanies stub_config (acme_upstream (fun _ => 0)) "Acme"
      (mkWorld (delete (generateCompanyCacheKey "Acme") (cache warm_world)) 2592000001 []).
Proof.
  destruct (expired_entry_is_no_entry stub_config (acme_upstream (fun _ => 0))
              stub_toISOString "Acme" "Engineer" "Acme" (at_time 2592000001 warm_world)
              (mkEntry (Items [acme]) (thirty_days * 1000)) eq_refl) as (_ & H & _).
  apply H. reflexivity.
Defined.
